(** * pstack-gdb: the gdb conversation driver of [src/pstack-gdb.c]

    A shallow embedding of the program's output framer ([read_lines]), its
    line scanners ([attach_ok], [get_thread_ids]), the conversation state
    machine ([process_gdb_output]) and the reap supervisor ([reap_gdb],
    [waitpid_timeout]), followed by the properties of the specification that
    were checked against them.

    C strings are modelled by [string] (the characters before the
    terminating NUL), a [gchar **] vector by [list string], a [GSList] by
    [list], a [gint] by [Z]. *)

From Stdlib Require Import ZArith Lia Bool List Ascii String DecimalString.
From Stdlib Require DecimalPos.
Import ListNotations.

Local Open Scope string_scope.
Local Open Scope Z_scope.

(** ** C library and GLib functions used by the program *)

Module CLib.

Definition NUL : ascii := Ascii.zero.
Definition LF : ascii := "010"%char.

(** The unsigned value of a character. *)
Definition uchar (c : ascii) : Z := Z.of_nat (nat_of_ascii c).

(** [g_ascii_isdigit]: the ten characters '0' .. '9'. *)
Definition g_ascii_isdigit (c : ascii) : bool :=
  (48 <=? uchar c) && (uchar c <=? 57).

(** [isspace] in the C locale. *)
Definition isspace (c : ascii) : bool :=
  (uchar c =? 32) || ((9 <=? uchar c) && (uchar c <=? 13)).

(** [strlen] *)
Definition strlen (s : string) : nat := String.length s.

(** Pointer arithmetic [s + n] inside a string. *)
Fixpoint str_offset (n : nat) (s : string) : string :=
  match n, s with
  | O, _ => s
  | S n', String _ s' => str_offset n' s'
  | S _, EmptyString => EmptyString
  end.

(** [strcmp]: difference of the first pair of differing characters. *)
Fixpoint strcmp (s1 s2 : string) : Z :=
  match s1, s2 with
  | EmptyString, EmptyString => 0
  | EmptyString, String b _ => uchar NUL - uchar b
  | String a _, EmptyString => uchar a - uchar NUL
  | String a s1', String b s2' =>
      if Ascii.eqb a b then strcmp s1' s2' else uchar a - uchar b
  end.

(** [strncmp]: as [strcmp], over at most [n] characters. *)
Fixpoint strncmp (s1 s2 : string) (n : nat) {struct n} : Z :=
  match n with
  | O => 0
  | S n' =>
      match s1, s2 with
      | EmptyString, EmptyString => 0
      | EmptyString, String b _ => uchar NUL - uchar b
      | String a _, EmptyString => uchar a - uchar NUL
      | String a s1', String b s2' =>
          if Ascii.eqb a b then strncmp s1' s2' n' else uchar a - uchar b
      end
  end.

(** [strstr]: the tail of [haystack] at the first occurrence of [needle],
    [None] for the NULL pointer. *)
Fixpoint strstr (haystack needle : string) : option string :=
  if String.prefix needle haystack then Some haystack
  else match haystack with
       | EmptyString => None
       | String _ h' => strstr h' needle
       end.

(** [g_str_has_suffix]: compares the last [strlen suffix] characters. *)
Definition g_str_has_suffix (str suffix : string) : bool :=
  let str_len := strlen str in
  let suffix_len := strlen suffix in
  if (str_len <? suffix_len)%nat then false
  else strcmp (str_offset (str_len - suffix_len) str) suffix =? 0.

(** The pieces of [s] between occurrences of the character [d]; a string
    with n delimiters has n + 1 pieces. *)
Fixpoint split_on (d : ascii) (s : string) : list string :=
  match s with
  | EmptyString => [EmptyString]
  | String c s' =>
      if Ascii.eqb c d then EmptyString :: split_on d s'
      else match split_on d s' with
           | [] => [String c EmptyString]
           | tok :: toks => String c tok :: toks
           end
  end.

(** [g_strsplit (s, delimiter, -1)] for a one-character delimiter: no
    limit on the number of tokens; the empty string gives the empty
    vector. *)
Definition g_strsplit (s : string) (d : ascii) : list string :=
  match s with
  | EmptyString => []
  | _ => split_on d s
  end.

(** What reaches [g_string_append] from a byte buffer: the bytes before
    the first NUL. *)
Fixpoint c_str (bytes : string) : string :=
  match bytes with
  | EmptyString => EmptyString
  | String c bytes' =>
      if Ascii.eqb c NUL then EmptyString else String c (c_str bytes')
  end.

(** Two's-complement reading of the low 32 bits: the value a [gint]
    holds after an assignment or a decrement. *)
Definition gint_wrap (z : Z) : Z := (z + 2 ^ 31) mod 2 ^ 32 - 2 ^ 31.

Definition G_MAXINT : Z := 2 ^ 31 - 1.
Definition ULONG_MAX : Z := 2 ^ 64 - 1.
Definition ERANGE : Z := 34.

(** The digits of a decimal literal, accumulated from the left; stops at
    the first character that is not a digit and returns the rest. *)
Fixpoint digits_value (acc : Z) (s : string) : Z * string :=
  match s with
  | EmptyString => (acc, EmptyString)
  | String c s' =>
      if g_ascii_isdigit c then digits_value (10 * acc + (uchar c - 48)) s'
      else (acc, s)
  end.

Fixpoint skip_space (s : string) : string :=
  match s with
  | String c s' => if isspace c then skip_space s' else s
  | EmptyString => EmptyString
  end.

(** [strtoul (nptr, &endptr, 10)] with a 64-bit [unsigned long]: returns
    the value, the string at [endptr] and the new [errno].  Without any
    digit the value is 0 and [endptr] is [nptr]; a value above
    [ULONG_MAX] gives [ULONG_MAX] and [ERANGE]; a minus sign negates
    modulo 2^64. *)
Definition strtoul (nptr : string) (errno : Z) : Z * string * Z :=
  let s := skip_space nptr in
  let '(neg, body) :=
    match s with
    | String "-" s' => (true, s')
    | String "+" s' => (false, s')
    | _ => (false, s)
    end in
  match body with
  | String c _ =>
      if g_ascii_isdigit c then
        let '(v, endp) := digits_value 0 body in
        if v >? ULONG_MAX then (ULONG_MAX, endp, ERANGE)
        else ((if neg then (- v) mod 2 ^ 64 else v), endp, errno)
      else (0, nptr, errno)
  | EmptyString => (0, nptr, errno)
  end.

(** [printf ("%d")] of a [gint]. *)
Definition string_of_gint (z : Z) : string :=
  DecimalString.NilZero.string_of_int (Z.to_int z).

End CLib.

Import CLib.

(** ** Data of the program *)

Definition REAP_DELAY : Z := 1000.
Definition REAP_RETRY_COUNT : Z := 5.
Definition BUF_SIZE : nat := 1024.

Definition SIGKILL : Z := 9.
Definition SIGTERM : Z := 15.

Inductive State : Set :=
| STATE_START
| STATE_ATTACH
| STATE_CHECK_THREADS
| STATE_BACKTRACE
| STATE_PRINT_BACKTRACE
| STATE_DETACH
| STATE_DONE.

Definition State_eqb (a b : State) : bool :=
  match a, b with
  | STATE_START, STATE_START | STATE_ATTACH, STATE_ATTACH
  | STATE_CHECK_THREADS, STATE_CHECK_THREADS
  | STATE_BACKTRACE, STATE_BACKTRACE
  | STATE_PRINT_BACKTRACE, STATE_PRINT_BACKTRACE
  | STATE_DETACH, STATE_DETACH | STATE_DONE, STATE_DONE => true
  | _, _ => false
  end.

(** [struct _App], without its handles ([loop], [in], [out]): what happens
    on those is recorded in [World]. *)
Record App : Set := mkApp {
  pids : list Z;
  threads : list string;
  gdb_pid : Z;
  reap_try : Z;
  state : State
}.

(** The session and the effects it has had so far, oldest first. *)
Record World : Set := mkWorld {
  app : App;
  gdb_stdin : list string;     (* each write to [app->in] *)
  stdout : list string;        (* each [g_print] *)
  stderr : list string;        (* each [g_printerr] *)
  signals : list (Z * Z);      (* each [kill (pid, sig)] *)
  loop_quit : bool             (* [g_main_loop_quit (app->loop)] was called *)
}.

Definition with_app (f : App -> App) (w : World) : World :=
  mkWorld (f (app w)) (gdb_stdin w) (stdout w) (stderr w) (signals w)
          (loop_quit w).

Definition set_pids (l : list Z) : World -> World :=
  with_app (fun a => mkApp l (threads a) (gdb_pid a) (reap_try a) (state a)).
Definition set_threads (l : list string) : World -> World :=
  with_app (fun a => mkApp (pids a) l (gdb_pid a) (reap_try a) (state a)).
Definition set_reap_try (n : Z) : World -> World :=
  with_app (fun a => mkApp (pids a) (threads a) (gdb_pid a) n (state a)).
Definition set_state (s : State) : World -> World :=
  with_app (fun a => mkApp (pids a) (threads a) (gdb_pid a) (reap_try a) s).

Definition g_print (s : string) (w : World) : World :=
  mkWorld (app w) (gdb_stdin w) (stdout w ++ [s]) (stderr w) (signals w)
          (loop_quit w).
Definition g_printerr (s : string) (w : World) : World :=
  mkWorld (app w) (gdb_stdin w) (stdout w) (stderr w ++ [s]) (signals w)
          (loop_quit w).
Definition kill (pid sig : Z) (w : World) : World :=
  mkWorld (app w) (gdb_stdin w) (stdout w) (stderr w)
          (signals w ++ [(pid, sig)]) (loop_quit w).
Definition g_main_loop_quit (w : World) : World :=
  mkWorld (app w) (gdb_stdin w) (stdout w) (stderr w) (signals w) true.
Definition write_chars (s : string) (w : World) : World :=
  mkWorld (app w) (gdb_stdin w ++ [s]) (stdout w) (stderr w) (signals w)
          (loop_quit w).

(** [GIOCondition] bits and [GIOStatus], as GLib declares them. *)
Definition G_IO_IN : Z := 1.
Definition G_IO_PRI : Z := 2.
Definition G_IO_OUT : Z := 4.
Definition G_IO_ERR : Z := 8.
Definition G_IO_HUP : Z := 16.
Definition G_IO_NVAL : Z := 32.

Inductive GIOStatus : Set :=
| G_IO_STATUS_ERROR
| G_IO_STATUS_NORMAL
| G_IO_STATUS_EOF
| G_IO_STATUS_AGAIN.

(** One call of [g_io_channel_read_chars]: its status, the bytes it stored
    and the message of the [GError] it set, if any. *)
Record ReadChars : Set := mkRead {
  rc_status : GIOStatus;
  rc_bytes : string;
  rc_error : option string
}.

(** The output channel of gdb, as what its successive reads will return.
    Once these are used up a read finds nothing:
    [G_IO_STATUS_AGAIN] and no byte. *)
Definition Channel : Set := list ReadChars.

Definition nothing_to_read : ReadChars := mkRead G_IO_STATUS_AGAIN "" None.

(** A line feed as a string, for the formats that end in one. *)
Definition nl : string := String LF EmptyString.

(** ** Command line: [get_pid_list] *)

(** The loop of [get_pid_list] over [argv[i]], [i >= 1].  [pids] is built
    by [g_slist_prepend]; on an invalid argument the list is freed and
    NULL, the empty list, is returned; at the end [g_slist_reverse].
    [errno] is never reset by the program.  The second component is what
    was printed on the error stream. *)
Fixpoint get_pid_list_loop (args : list string) (errno : Z) (pids : list Z)
    : list Z * list string :=
  match args with
  | [] => (rev pids, [])
  | arg :: args' =>
      let '(v, endptr, errno') := strtoul arg errno in
      let pid := gint_wrap v in
      if negb (String.eqb endptr "") || (pid <=? 0) || (pid >? G_MAXINT)
         || negb (errno' =? 0)
      then ([], ["Invalid pid: " ++ arg ++ nl ++ nl])
      else get_pid_list_loop args' errno' (pid :: pids)
  end.

(** [argv] includes the program name, [argc] is its length. *)
Definition get_pid_list (argv : list string) (errno : Z)
    : list Z * list string :=
  if (Z.of_nat (List.length argv) <? 2)
  then ([], ["No valid pids given" ++ nl ++ nl])
  else get_pid_list_loop (tl argv) errno [].

(** ** Output framer: [read_lines] *)

Definition PROMPT : string := "(gdb) ".

(** The body of the [while (!done)] loop after one read: the new buffer,
    the world after the error report, [done], and [lines] when the buffer
    now ends with the prompt. *)
Definition read_lines_body (r : ReadChars) (buf : string) (w : World)
    : string * World * bool * option (list string) :=
  let buf := buf ++ c_str (rc_bytes r) in
  let '(w, done) :=
    match rc_status r with
    | G_IO_STATUS_NORMAL => (w, false)
    | G_IO_STATUS_AGAIN | G_IO_STATUS_EOF => (w, true)
    | G_IO_STATUS_ERROR =>
        (match rc_error r with
         | Some message => g_printerr ("gdb read error: " ++ message) w
         | None => g_printerr "gdb read error" w
         end, true)
    end in
  if g_str_has_suffix buf PROMPT
  then (buf, w, true, Some (removelast (g_strsplit buf LF)))
  else (buf, w, done, None).

(** The loop itself.  [None] is the one case the embedding gives no
    meaning to: a read that fills all [BUF_SIZE] bytes, after which
    [buffer[bytes] = 0] writes past the array.  Otherwise the result is
    [lines] (None for NULL), the rest of the channel and the world. *)
Fixpoint read_lines_loop (ch : Channel) (buf : string) (w : World)
    : option (option (list string) * Channel * World) :=
  match ch with
  | [] =>
      let '(_, w, _, lines) := read_lines_body nothing_to_read buf w in
      Some (lines, [], w)
  | r :: ch' =>
      if (BUF_SIZE <=? String.length (rc_bytes r))%nat then None
      else
        let '(buf, w, done, lines) := read_lines_body r buf w in
        if done then Some (lines, ch', w) else read_lines_loop ch' buf w
  end.

(** [buf] is a fresh [GString] on every call and is freed on return. *)
Definition read_lines (ch : Channel) (w : World)
    : option (option (list string) * Channel * World) :=
  read_lines_loop ch "" w.

(** [print_lines] *)
Fixpoint print_lines (lines : list string) (w : World) : World :=
  match lines with
  | [] => w
  | l :: iter => print_lines iter (g_print (l ++ nl) w)
  end.

(** ** Line scanners *)

(** [attach_ok]: the result and [*errbuf], which is set only on FALSE. *)
Fixpoint attach_ok (lines : list string) : bool * option string :=
  match lines with
  | [] => (true, None)
  | l :: iter =>
      if strncmp l "ptrace:" (strlen "ptrace:") =? 0
      then (false, Some l)
      else attach_ok iter
  end.

(** The inner loop of [get_thread_ids] over one line, [s] being the part
    still to scan: returns [found] and what the scanned part holds
    afterwards, cut where [*s = 0] was written. *)
Fixpoint scan_line (found : bool) (s : string) : bool * string :=
  match s with
  | EmptyString => (found, EmptyString)
  | String c s' =>
      if g_ascii_isdigit c then
        let '(f, r) := scan_line true s' in (f, String c r)
      else if found then (true, EmptyString)
      else let '(f, r) := scan_line false s' in (f, String c r)
  end.

(** The outer loop: [threads] grows by [g_slist_prepend]; the second
    component is the line vector as the loop leaves it. *)
Fixpoint get_thread_ids_loop (lines : list string) (threads : list string)
    : list string * list string :=
  match lines with
  | [] => (threads, [])
  | l :: iter =>
      match strstr l "Thread" with
      | None =>
          let '(t, ls) := get_thread_ids_loop iter threads in (t, l :: ls)
      | Some _ =>
          let '(found, l') := scan_line false l in
          let threads := if found then l' :: threads else threads in
          let '(t, ls) := get_thread_ids_loop iter threads in (t, l' :: ls)
      end
  end.

Definition get_thread_ids (lines : list string) : list string * list string :=
  get_thread_ids_loop lines [].

(** ** Commands *)

Definition send_command (command : string) (w : World) : World :=
  write_chars (command ++ nl) w.

(** [send_thread_backtrace]: takes the head of [app->threads];
    [g_slist_remove] finds that very node first.  Both callers test
    [app->threads] before the call, the empty case is never run. *)
Definition send_thread_backtrace (w : World) : World :=
  match threads (app w) with
  | [] => w
  | str :: next =>
      send_command ("pstack_thread " ++ str) (set_threads next w)
  end.

(** ** Conversation state machine: [process_gdb_output] *)

Definition define_pstack_thread : string :=
  "define pstack_thread" ++ nl ++ "thread $arg0" ++ nl ++ "backtrace" ++ nl
  ++ "end" ++ nl.

(** The [STATE_DETACH] case, which [STATE_PRINT_BACKTRACE] falls through
    to.  [app->pids] is not NULL here: see [check_pids]. *)
Definition detach_case (w : World) : World :=
  let w := send_command "detach" w in
  let w := set_threads [] w in
  let w := set_pids (tl (pids (app w))) w in
  set_state STATE_ATTACH w.

(** The [switch (app->state)]: the world afterwards and the line vector as
    it is when [g_strfreev] releases it. *)
Definition handle_turn (pid : Z) (lines : list string) (w : World)
    : World * list string :=
  match state (app w) with
  | STATE_START =>
      let w := send_command define_pstack_thread w in
      (set_state STATE_ATTACH w, lines)
  | STATE_ATTACH =>
      let w := send_command ("attach " ++ string_of_gint pid) w in
      (set_state STATE_CHECK_THREADS w, lines)
  | STATE_CHECK_THREADS =>
      match attach_ok lines with
      | (true, _) =>
          let w := send_command "info threads" w in
          (set_state STATE_BACKTRACE w, lines)
      | (false, buf) =>
          let buf := match buf with Some b => b | None => "" end in
          let w := g_printerr ("Skipping pid " ++ string_of_gint pid ++ ": "
                               ++ buf ++ nl) w in
          let w := send_command "p 0" w in
          let w := set_pids (tl (pids (app w))) w in
          (set_state STATE_ATTACH w, lines)
      end
  | STATE_BACKTRACE =>
      let w := g_print ("Backtrace for pid " ++ string_of_gint pid ++ nl) w in
      match lines with
      | _ :: _ =>
          let '(ids, lines) := get_thread_ids lines in
          let w := set_threads ids w in
          match ids with
          | _ :: _ =>
              let w := send_thread_backtrace w in
              (set_state STATE_PRINT_BACKTRACE w, lines)
          | [] => (set_state STATE_DETACH w, lines)
          end
      | [] =>
          let w := send_command "backtrace" w in
          (set_state STATE_PRINT_BACKTRACE w, lines)
      end
  | STATE_PRINT_BACKTRACE =>
      let w := print_lines lines w in
      match threads (app w) with
      | _ :: _ =>
          let w := send_thread_backtrace w in
          (set_state STATE_PRINT_BACKTRACE w, lines)
      | [] => (detach_case w, lines)
      end
  | STATE_DETACH => (detach_case w, lines)
  | STATE_DONE => (send_command "quit" w, lines)
  end.

(** [pid] as the callback computes it before reading. *)
Definition current_pid (w : World) : Z :=
  match pids (app w) with
  | p :: _ => p
  | [] => -1
  end.

(** With no pid left the state is forced to [STATE_DONE]. *)
Definition check_pids (w : World) : World :=
  match pids (app w) with
  | _ :: _ => w
  | [] => set_state STATE_DONE w
  end.

(** What the callback does with a framed turn. *)
Definition turn (lines : list string) (w : World) : World :=
  fst (handle_turn (current_pid w) lines (check_pids w)).

(** The line vector of that turn when it is released. *)
Definition released (lines : list string) (w : World) : list string :=
  snd (handle_turn (current_pid w) lines (check_pids w)).

(** The callback on the output channel.  Returns its result (FALSE
    removes the watch), the rest of the channel, the world, and the
    released line vector when a turn was handled.  [None] only as in
    [read_lines_loop]. *)
Definition process_gdb_output (condition : Z) (ch : Channel) (w : World)
    : option (bool * Channel * World * option (list string)) :=
  if negb (Z.land condition G_IO_ERR =? 0)
     || negb (Z.land condition G_IO_HUP =? 0)
  then Some (false, ch, w, None)
  else
    let pid := current_pid w in
    let w := check_pids w in
    match read_lines ch w with
    | None => None
    | Some (None, ch, w) => Some (false, ch, w, None)
    | Some (Some lines, ch, w) =>
        let '(w, lines) := handle_turn pid lines w in
        Some (true, ch, w, Some lines)
    end.

(** A session fed one framed turn after the other. *)
Fixpoint run (turns : list (list string)) (w : World) : World :=
  match turns with
  | [] => w
  | lines :: turns' => run turns' (turn lines w)
  end.

(** [main] after a successful [start_gdb]: [g_new0] zeroes the struct,
    then [app->pids = pids] and [app->state = STATE_START]. *)
Definition session_start (gdb : Z) (pids : list Z) : World :=
  mkWorld (mkApp pids [] gdb 0 STATE_START) [] [] [] [] false.

(** ** Reap supervisor *)

(** [waitpid_timeout], given what [waitpid (.., WNOHANG)] returns. *)
Definition waitpid_timeout (pid : Z) (w : World) : bool * World :=
  let w := set_reap_try (gint_wrap (reap_try (app w) - 1)) w in
  if pid =? -1 then (false, g_main_loop_quit w)
  else if pid =? 0 then
    let w :=
      if reap_try (app w) =? 0 then kill (gdb_pid (app w)) SIGTERM w
      else if reap_try (app w) <? 0 then kill (gdb_pid (app w)) SIGKILL w
      else w in
    (true, w)
  else (false, g_main_loop_quit w).

(** The timeout source added by [g_timeout_add]: called at every expiry
    until it returns FALSE.  [waitpid k] is what the k-th poll of the
    session returns; [ticks] expiries are observed. *)
Fixpoint timeout_source (waitpid : nat -> Z) (k ticks : nat) (w : World)
    : World :=
  match ticks with
  | O => w
  | S ticks' =>
      let '(again, w) := waitpid_timeout (waitpid k) w in
      if again then timeout_source waitpid (S k) ticks' w else w
  end.

(** [reap_gdb]: poll 0 at once, the others from the timer. *)
Definition reap_gdb (waitpid : nat -> Z) (ticks : nat) (w : World) : World :=
  let w :=
    if State_eqb (state (app w)) STATE_DONE then w
    else g_printerr ("gdb unexpectedly died!" ++ nl) w in
  let w := set_reap_try REAP_RETRY_COUNT w in
  let '(again, w) := waitpid_timeout (waitpid O) w in
  if again then timeout_source waitpid 1 ticks w else w.

(** ** Notions used in the statements *)

(** The maximal run of digits at the head of [s]. *)
Fixpoint take_digits (s : string) : string :=
  match s with
  | String c s' => if g_ascii_isdigit c then String c (take_digits s') else ""
  | EmptyString => ""
  end.

(** The first maximal run of digits in [s], if [s] has a digit. *)
Fixpoint first_digit_run (s : string) : option string :=
  match s with
  | EmptyString => None
  | String c s' =>
      if g_ascii_isdigit c then Some (take_digits s) else first_digit_run s'
  end.

(** The identifier of a line in the specification's words: the first
    maximal run of digits occurring after the token [Thread]. *)
Definition spec_thread_id (line : string) : option string :=
  match strstr line "Thread" with
  | None => None
  | Some at_token => first_digit_run (str_offset (strlen "Thread") at_token)
  end.

(** What [get_thread_ids] extracts from a line taken alone. *)
Definition line_ids (line : string) : list string :=
  fst (get_thread_ids [line]).

(** The identifiers of a listing in the order of its lines. *)
Definition ids_in_listing_order (lines : list string) : list string :=
  flat_map line_ids lines.

(** A subprocess that never exits: every poll returns 0. *)
Definition never_exits : nat -> Z := fun _ => 0.

(** The signals sent over [n] polls that all find the subprocess running,
    the counter being [r > 0] before the first of them: SIGTERM at the
    [r]-th poll, SIGKILL at each later one. *)
Definition late_signals (gdb r : Z) (n : nat) : list (Z * Z) :=
  if Z.of_nat n <? r then []
  else (gdb, SIGTERM) :: repeat (gdb, SIGKILL) (n - Z.to_nat r).

(** The same from [reap_try = REAP_RETRY_COUNT], as [reap_gdb] sets it. *)
Definition escalation (gdb : Z) (n : nat) : list (Z * Z) :=
  late_signals gdb REAP_RETRY_COUNT n.

(** The signals after [n] polls of a subprocess that never exits, in the
    specification's words: termination is requested once, after
    REAP_RETRY_COUNT failed polls, the forced kill is issued once, on the
    next failed poll, and nothing is sent on any later poll. *)
Definition spec_escalation (gdb : Z) (n : nat) : list (Z * Z) :=
  if (n <? Z.to_nat REAP_RETRY_COUNT)%nat then []
  else if (n =? Z.to_nat REAP_RETRY_COUNT)%nat then [(gdb, SIGTERM)]
  else [(gdb, SIGTERM); (gdb, SIGKILL)].

(** A subprocess whose first [k] polls find it running and whose next
    poll returns [pid]. *)
Definition exits_at (k : nat) (pid : Z) : nat -> Z :=
  fun j => if (j <? k)%nat then 0 else pid.

(** A string without NUL, as every C string literal is. *)
Fixpoint nul_free (s : string) : Prop :=
  match s with
  | EmptyString => True
  | String c s' => c <> NUL /\ nul_free s'
  end.

(** A line that begins with the token [ptrace:]. *)
Definition begins_with_ptrace (l : string) : Prop :=
  exists tail, l = "ptrace:" ++ tail.

(** The turn that follows a return to [STATE_ATTACH]: [attach] for the
    pid now at the front, [quit] when none is left. *)
Definition next_target_command (rest : list Z) : string :=
  match rest with
  | q :: _ => "attach " ++ string_of_gint q ++ nl
  | [] => "quit" ++ nl
  end.

(** Strings of digits only, strings without any digit, and strings that
    do not start with a digit. *)
Fixpoint digits_only (s : string) : bool :=
  match s with
  | EmptyString => true
  | String c s' => g_ascii_isdigit c && digits_only s'
  end.

Fixpoint digit_free (s : string) : bool :=
  match s with
  | EmptyString => true
  | String c s' => negb (g_ascii_isdigit c) && digit_free s'
  end.

Definition no_digit_ahead (s : string) : bool :=
  match s with
  | EmptyString => true
  | String c _ => negb (g_ascii_isdigit c)
  end.

(** What [get_thread_ids] leaves of a line in the vector. *)
Definition line_after (l : string) : string :=
  match strstr l "Thread" with
  | None => l
  | Some _ => snd (scan_line false l)
  end.

(** [l'] is [l] cut short. *)
Definition truncation_of (l l' : string) : Prop :=
  exists rest, l = l' ++ rest.

(** The command [send_thread_backtrace] writes for an identifier. *)
Definition thread_command (id : string) : string :=
  "pstack_thread " ++ id ++ nl.

(** An argument that [get_pid_list] accepts when [errno] is 0 before it,
    and the pid it stands for. *)
Definition valid_pid_arg (arg : string) : bool :=
  let '(v, endptr, errno') := strtoul arg 0 in
  negb (negb (String.eqb endptr "") || (gint_wrap v <=? 0)
        || (gint_wrap v >? G_MAXINT) || negb (errno' =? 0)).

Definition pid_of_arg (arg : string) : Z :=
  gint_wrap (fst (fst (strtoul arg 0))).

(** The [attach] command for a pid, and the commands of a session that
    are [attach] commands. *)
Definition attach_command (p : Z) : string :=
  "attach " ++ string_of_gint p ++ nl.

Definition is_attach_command (c : string) : bool :=
  strncmp c "attach " (strlen "attach ") =? 0.

Definition attach_commands (w : World) : list string :=
  filter is_attach_command (gdb_stdin w).

(** The conversation as a transition system over the pid queue and the
    state: [transition ps st cmds ps' st'] when some turn, handled in state
    [st] with queue [ps], writes [cmds] and leaves [ps'] and [st']. *)
Inductive transition
  : list Z -> State -> list string -> list Z -> State -> Prop :=
| T_no_pid st :
    transition [] st ["quit" ++ nl] [] STATE_DONE
| T_start p ps :
    transition (p :: ps) STATE_START [define_pstack_thread ++ nl]
               (p :: ps) STATE_ATTACH
| T_attach p ps :
    transition (p :: ps) STATE_ATTACH [attach_command p]
               (p :: ps) STATE_CHECK_THREADS
| T_attached p ps :
    transition (p :: ps) STATE_CHECK_THREADS ["info threads" ++ nl]
               (p :: ps) STATE_BACKTRACE
| T_attach_failed p ps :
    transition (p :: ps) STATE_CHECK_THREADS ["p 0" ++ nl] ps STATE_ATTACH
| T_single_thread p ps :
    transition (p :: ps) STATE_BACKTRACE ["backtrace" ++ nl]
               (p :: ps) STATE_PRINT_BACKTRACE
| T_first_thread p ps t :
    transition (p :: ps) STATE_BACKTRACE [thread_command t]
               (p :: ps) STATE_PRINT_BACKTRACE
| T_no_thread p ps :
    transition (p :: ps) STATE_BACKTRACE [] (p :: ps) STATE_DETACH
| T_next_thread p ps t :
    transition (p :: ps) STATE_PRINT_BACKTRACE [thread_command t]
               (p :: ps) STATE_PRINT_BACKTRACE
| T_last_thread p ps :
    transition (p :: ps) STATE_PRINT_BACKTRACE ["detach" ++ nl] ps STATE_ATTACH
| T_detach p ps :
    transition (p :: ps) STATE_DETACH ["detach" ++ nl] ps STATE_ATTACH
| T_done p ps :
    transition (p :: ps) STATE_DONE ["quit" ++ nl] (p :: ps) STATE_DONE.

(** States in which an [attach] has been sent for the pid at the front of
    the queue and that pid is still there. *)
Definition attached_state (st : State) : bool :=
  match st with
  | STATE_CHECK_THREADS | STATE_BACKTRACE | STATE_PRINT_BACKTRACE
  | STATE_DETACH => true
  | _ => false
  end.

(** The pids a session was started with, those it has sent [attach] for
    and its queue: the visited pids are a prefix of the original list, the
    queue is what remains, with the pid being handled still at its
    front. *)
Definition visited_in_order (pids0 : list Z) (w : World) : Prop :=
  exists visited remaining : list Z,
    pids0 = (visited ++ remaining)%list
    /\ attach_commands w = map attach_command visited
    /\ ((attached_state (state (app w)) = false
         /\ pids (app w) = remaining)
        \/ (attached_state (state (app w)) = true
            /\ exists before p,
                 visited = (before ++ [p])%list
                 /\ pids (app w) = p :: remaining)).

(** A read that returns a chunk of bytes with the normal status. *)
Definition normal_read (chunk : string) : ReadChars :=
  mkRead G_IO_STATUS_NORMAL chunk None.

(** The content that a sequence of chunks carries. *)
Definition concat_chunks (chunks : list string) : string :=
  fold_right append "" chunks.

(** A chunk that [read_lines] can take in: no NUL byte in it, and shorter
    than the read buffer. *)
Definition chunk_ok (chunk : string) : Prop :=
  nul_free chunk /\ (String.length chunk < BUF_SIZE)%nat.

(** After none of these chunks does the buffer, [buf] before them, end
    with the prompt. *)
Fixpoint no_prompt_after (buf : string) (chunks : list string) : bool :=
  match chunks with
  | [] => true
  | c :: cs =>
      negb (g_str_has_suffix (buf ++ c) PROMPT) && no_prompt_after (buf ++ c) cs
  end.

(** The turn that a content ending with the prompt stands for: its pieces
    between line feeds, without the last one. *)
Definition turn_of_content (content : string) : list string :=
  removelast (g_strsplit content LF).

(** The report of [read_lines] for a read with the error status. *)
Definition read_error_report (r : ReadChars) : string :=
  match rc_error r with
  | Some message => "gdb read error: " ++ message
  | None => "gdb read error"
  end.

(** [n] bytes of the same letter. *)
Fixpoint pad (n : nat) : string :=
  match n with
  | O => ""
  | S n' => String "x" (pad n')
  end.

(** ** Start-up: [main]

    [PSTACK_VERSION] is a macro given to the compiler, and what
    [g_spawn_async_with_pipes] answers is an input: an error message, or
    the pid of gdb. *)

Definition print_version (PSTACK_VERSION : string) (w : World) : World :=
  let w := g_print ("pstack-gdb version " ++ PSTACK_VERSION ++ nl) w in
  let w := g_print ("Written by Manish Singh." ++ nl ++ nl) w in
  g_print ("Copyright (C) 2004 Oracle." ++ nl) w.

Definition usage (prgname : string) (w : World) : World :=
  let w := g_print ("Usage: " ++ prgname ++ " [OPTION] pid [...]" ++ nl ++ nl) w in
  let w := g_print ("Specify one or more pids to print a stack trace for each."
                    ++ nl ++ nl) w in
  let w := g_print ("Options:" ++ nl) w in
  let w := g_print ("  -V, --version  print version information and exit" ++ nl) w in
  g_print ("      --help     display this help and exit" ++ nl) w.

(** [*argv[i] == '-'] *)
Definition begins_with_dash (arg : string) : bool :=
  match arg with
  | String c _ => Ascii.eqb c "-"
  | EmptyString => false
  end.

(** The first loop of [main] over [argv[i]], [i >= 1]: [Some] with the
    exit status when an argument makes the program exit. *)
Fixpoint main_options (PSTACK_VERSION prgname : string) (args : list string)
    (w : World) : option (Z * World) :=
  match args with
  | [] => None
  | arg :: args' =>
      if (strcmp arg "--version" =? 0) || (strcmp arg "-V" =? 0)
      then Some (0, print_version PSTACK_VERSION w)
      else if strcmp arg "--help" =? 0 then Some (0, usage prgname w)
      else if begins_with_dash arg then Some (1, usage prgname w)
      else main_options PSTACK_VERSION prgname args' w
  end.

Definition set_gdb_pid (g : Z) : World -> World :=
  with_app (fun a => mkApp (pids a) (threads a) g (reap_try a) (state a)).

(** [start_gdb], given the answer of the spawn. *)
Definition start_gdb (spawn : string + Z) (w : World) : bool * World :=
  match spawn with
  | inl message =>
      (false, g_printerr ("Unable to start gdb: " ++ message ++ nl) w)
  | inr gdb => (true, set_gdb_pid gdb w)
  end.

(** How [main] ends before the loop runs, or the session it runs the
    loop on. *)
Inductive MainResult : Set :=
| Exited (code : Z) (out err : list string)
| Running (w : World).

(** The zeroed [App] of [g_new0], nothing written yet. *)
Definition blank : World := mkWorld (mkApp [] [] 0 0 STATE_START) [] [] [] [] false.

(** [main] up to [g_main_loop_run].  [argv[0]] is the program name. *)
Definition main (PSTACK_VERSION : string) (argv : list string) (errno : Z)
    (spawn : string + Z) : MainResult :=
  let prgname := hd "" argv in
  match main_options PSTACK_VERSION prgname (tl argv) blank with
  | Some (code, w) => Exited code (stdout w) (stderr w)
  | None =>
      let '(pids, messages) := get_pid_list argv errno in
      match pids with
      | [] => Exited 1 (stdout (usage prgname blank)) messages
      | _ :: _ =>
          match start_gdb spawn blank with
          | (false, w) => Exited 1 (stdout w) (stderr w)
          | (true, w) => Running (set_state STATE_START (set_pids pids w))
          end
      end
  end.

(** A pid that [get_pid_list] can return. *)
Definition pid_in_range (p : Z) : Prop := 0 < p <= G_MAXINT.

(** The report of [get_pid_list] on an argument. *)
Definition invalid_pid_report (arg : string) : string :=
  "Invalid pid: " ++ arg ++ nl ++ nl.

(** What holds of every session that [main] starts: identifiers are
    queued only in [STATE_PRINT_BACKTRACE], a state that handles an
    attached pid has that pid in the queue, and [STATE_DONE] has none. *)
Definition session_invariant (w : World) : Prop :=
  (threads (app w) <> [] -> state (app w) = STATE_PRINT_BACKTRACE)
  /\ (attached_state (state (app w)) = true -> pids (app w) <> [])
  /\ (state (app w) = STATE_DONE -> pids (app w) = []).

(** The report of a failed attach: the pid and the line [attach_ok]
    stored. *)
Definition skipping_report (p : Z) (response : list string) : string :=
  "Skipping pid " ++ string_of_gint p ++ ": "
  ++ match snd (attach_ok response) with Some b => b | None => "" end ++ nl.

(** The header printed in [STATE_BACKTRACE]. *)
Definition backtrace_header (p : Z) : string :=
  "Backtrace for pid " ++ string_of_gint p ++ nl.

(** A line as [print_lines] writes it. *)
Definition printed_line (l : string) : string := l ++ nl.

(** A target whose attach fails: its pid, the response handled in
    [STATE_ATTACH] and the response to [attach]. *)
Record FailedTarget : Set := mkFailed {
  ft_pid : Z;
  ft_before : list string;
  ft_response : list string
}.

Definition failed_turns (t : FailedTarget) : list (list string) :=
  [ft_before t; ft_response t].

Definition failed_commands (t : FailedTarget) : list string :=
  [attach_command (ft_pid t); "p 0" ++ nl].

(** Strings without line feed. *)
Fixpoint lf_free (s : string) : bool :=
  match s with
  | EmptyString => true
  | String c s' => negb (Ascii.eqb c LF) && lf_free s'
  end.

(** The output of gdb that holds these lines, each ended by a line
    feed. *)
Definition lines_content (lines : list string) : string :=
  concat_chunks (map printed_line lines).

(** A string whose last character is a digit. *)
Definition ends_with_digit (s : string) : Prop :=
  exists pre c, s = pre ++ String c "" /\ g_ascii_isdigit c = true.

(** A signal of the reap supervisor: SIGTERM or SIGKILL, to gdb. *)
Definition reap_signal (gdb : Z) (s : Z * Z) : Prop :=
  fst s = gdb /\ (snd s = SIGTERM \/ snd s = SIGKILL).

(** Same session, same streams: all that the reap supervisor leaves
    alone. *)
Definition same_session (w w' : World) : Prop :=
  pids (app w') = pids (app w)
  /\ threads (app w') = threads (app w)
  /\ state (app w') = state (app w)
  /\ gdb_pid (app w') = gdb_pid (app w)
  /\ gdb_stdin w' = gdb_stdin w
  /\ stdout w' = stdout w.

(** * Properties *)

(** ** The library functions *)

Lemma append_nil_r (s : string) : s ++ "" = s.
Proof. induction s as [|c s IH]; simpl; congruence. Qed.

Lemma append_assoc (a b c : string) : (a ++ b) ++ c = a ++ b ++ c.
Proof. induction a as [|x a IH]; simpl; congruence. Qed.

Lemma length_append (a b : string) :
  String.length (a ++ b) = (String.length a + String.length b)%nat.
Proof. induction a as [|x a IH]; simpl; congruence. Qed.

(** Characters differ when their codes do. *)
Lemma uchar_inj (a b : ascii) : uchar a - uchar b = 0 -> a = b.
Proof.
  unfold uchar. intros H.
  assert (E : nat_of_ascii a = nat_of_ascii b) by lia.
  rewrite <- (ascii_nat_embedding a), <- (ascii_nat_embedding b), E.
  reflexivity.
Qed.

(** [String.prefix], on which [strstr] rests. *)
Lemma prefix_iff (n : string) :
  forall h : string, String.prefix n h = true <-> exists post, h = n ++ post.
Proof.
  induction n as [|a n IH]; intros h.
  - split; [intros _; exists h; reflexivity|]. intros _. destruct h; reflexivity.
  - destruct h as [|b h]; simpl.
    + split; [discriminate | intros [post H]; discriminate].
    + destruct (Ascii.ascii_dec a b) as [E | E].
      * subst b. rewrite IH. split; intros [post H]; exists post; congruence.
      * split; [discriminate | intros [post H]; congruence].
Qed.

(** [strstr] finds the needle exactly in the strings that contain it. *)
Lemma strstr_iff (n : string) :
  forall h : string,
    strstr h n <> None <-> exists pre post, h = pre ++ n ++ post.
Proof.
  induction h as [|c h IH].
  - cbn [strstr]. destruct (String.prefix n "") eqn:E.
    + split; [|discriminate]. intros _.
      apply prefix_iff in E. destruct E as [post E]. exists "", post. exact E.
    + split; [intros H; contradiction|].
      intros (pre & post & H). exfalso.
      destruct pre; [|discriminate]. simpl in H.
      assert (E' : String.prefix n "" = true)
        by (apply prefix_iff; exists post; exact H).
      congruence.
  - cbn [strstr]. destruct (String.prefix n (String c h)) eqn:E.
    + split; [|discriminate]. intros _.
      apply prefix_iff in E. destruct E as [post E]. exists "", post. exact E.
    + rewrite IH. split.
      * intros (pre & post & H). exists (String c pre), post.
        simpl. congruence.
      * intros (pre & post & H). destruct pre as [|c' pre].
        -- exfalso. simpl in H.
           assert (E' : String.prefix n (String c h) = true)
             by (apply prefix_iff; exists post; exact H).
           congruence.
        -- exists pre, post. simpl in H. congruence.
Qed.

Lemma strcmp_zero_iff (a : string) :
  forall b : string,
    String.length a = String.length b -> (strcmp a b = 0 <-> a = b).
Proof.
  induction a as [|x a IH]; intros [|y b] Hl; try discriminate.
  - split; reflexivity.
  - simpl in Hl. injection Hl as Hl. cbn [strcmp].
    destruct (Ascii.eqb x y) eqn:E.
    + apply Ascii.eqb_eq in E. subst y. rewrite (IH b Hl).
      split; congruence.
    + apply Ascii.eqb_neq in E. split; [|congruence].
      intros H. exfalso. apply E, uchar_inj, H.
Qed.

Lemma str_offset_split (n : nat) :
  forall s : string,
    (n <= String.length s)%nat ->
    exists pre, s = pre ++ str_offset n s /\ String.length pre = n.
Proof.
  induction n as [|n IH]; intros s Hl.
  - exists "". split; reflexivity.
  - destruct s as [|c s]; [simpl in Hl; lia|].
    simpl in Hl. destruct (IH s) as (pre & E & L); [lia|].
    exists (String c pre). simpl. split; congruence.
Qed.

Lemma str_offset_append (pre s : string) :
  str_offset (String.length pre) (pre ++ s) = s.
Proof. induction pre as [|c pre IH]; [reflexivity | exact IH]. Qed.

(** [g_str_has_suffix] holds exactly of the strings that end with the
    suffix. *)
Lemma g_str_has_suffix_iff (s suffix : string) :
  g_str_has_suffix s suffix = true <-> exists pre, s = pre ++ suffix.
Proof.
  unfold g_str_has_suffix, strlen.
  destruct (String.length s <? String.length suffix)%nat eqn:E.
  - apply Nat.ltb_lt in E. split; [discriminate|].
    intros [pre H]. apply (f_equal String.length) in H.
    rewrite length_append in H. lia.
  - apply Nat.ltb_ge in E. rewrite Z.eqb_eq.
    destruct (str_offset_split (String.length s - String.length suffix) s)
      as (pre & Hs & Hl); [lia|].
    set (t := str_offset _ s) in *.
    assert (Ht : String.length t = String.length suffix).
    { apply (f_equal String.length) in Hs. rewrite length_append in Hs. lia. }
    rewrite (strcmp_zero_iff t suffix Ht). split.
    + intros H. exists pre. congruence.
    + intros [pre' H]. subst t.
      replace (String.length s - String.length suffix)%nat
        with (String.length pre')
        by (apply (f_equal String.length) in H;
            rewrite length_append in H; lia).
      rewrite H. apply str_offset_append.
Qed.

(** The pieces of [split_on] hold no delimiter, and joined by the
    delimiter they give the string back. *)
Lemma split_on_not_nil (d : ascii) (s : string) : split_on d s <> [].
Proof.
  destruct s as [|c s]; [discriminate|]. simpl.
  destruct (Ascii.eqb c d); [discriminate|].
  destruct (split_on d s); discriminate.
Qed.

Lemma split_on_join (d : ascii) (s : string) :
  String.concat (String d "") (split_on d s) = s.
Proof.
  induction s as [|c s IH]; [reflexivity|].
  cbn [split_on]. pose proof (split_on_not_nil d s) as Hne.
  destruct (Ascii.eqb c d) eqn:E.
  - apply Ascii.eqb_eq in E. subst c.
    destruct (split_on d s) as [|t ts]; [contradiction|].
    cbn [String.concat]. cbn [String.concat] in IH. rewrite IH. reflexivity.
  - destruct (split_on d s) as [|t ts]; [contradiction|].
    destruct ts as [|t' ts]; cbn [String.concat append] in *; congruence.
Qed.

Lemma split_on_pieces (d : ascii) (s : string) :
  Forall (fun t => forall pre post, t <> pre ++ String d post) (split_on d s).
Proof.
  induction s as [|c s IH].
  - constructor; [|constructor]. intros [|? ?] post; discriminate.
  - cbn [split_on]. pose proof (split_on_not_nil d s) as Hne.
    destruct (Ascii.eqb c d) eqn:E.
    + constructor; [|exact IH]. intros [|? ?] post; discriminate.
    + destruct (split_on d s) as [|t ts]; [contradiction|].
      inversion IH as [|? ? Ht Hts]; subst.
      constructor; [|exact Hts].
      intros [|x pre] post H; simpl in H.
      * injection H as Hc _. apply Ascii.eqb_neq in E. congruence.
      * injection H as _ H. exact (Ht pre post H).
Qed.

(** ** Reap supervisor *)

Lemma gint_wrap_small (z : Z) : - 2 ^ 31 <= z < 2 ^ 31 -> gint_wrap z = z.
Proof.
  intros H. unfold gint_wrap.
  rewrite Z.mod_small; lia.
Qed.

(** A poll that finds the subprocess running, once the counter is at or
    below zero: one more SIGKILL, the timer stays armed. *)
Lemma waitpid_timeout_running_late (w : World) :
  - 2 ^ 31 < reap_try (app w) <= 0 ->
  waitpid_timeout 0 w =
    (true, kill (gdb_pid (app w)) SIGKILL
             (set_reap_try (reap_try (app w) - 1) w)).
Proof.
  intros H. unfold waitpid_timeout.
  rewrite gint_wrap_small by lia.
  destruct w as [[ps ts g r st] i o e sg q]; simpl in *.
  destruct (r - 1 =? 0) eqn:E0; [apply Z.eqb_eq in E0; lia|].
  destruct (r - 1 <? 0) eqn:E1; [reflexivity|apply Z.ltb_ge in E1; lia].
Qed.

Lemma timeout_source_late (ticks : nat) :
  forall (k : nat) (w : World),
    reap_try (app w) <= 0 ->
    - 2 ^ 31 < reap_try (app w) - Z.of_nat ticks ->
    let w' := timeout_source never_exits k ticks w in
    signals w' = (signals w ++ repeat (gdb_pid (app w), SIGKILL) ticks)%list
    /\ loop_quit w' = loop_quit w
    /\ gdb_pid (app w') = gdb_pid (app w).
Proof.
  induction ticks as [|t IH]; intros k w Hr Hb.
  - simpl. rewrite app_nil_r. auto.
  - cbn [timeout_source]. change (never_exits k) with 0.
    rewrite waitpid_timeout_running_late by lia.
    set (w1 := kill _ _ _).
    assert (Hr1 : reap_try (app w1) = reap_try (app w) - 1) by reflexivity.
    assert (Hg1 : gdb_pid (app w1) = gdb_pid (app w)) by reflexivity.
    assert (Hs1 : signals w1 = (signals w ++ [(gdb_pid (app w), SIGKILL)])%list)
      by reflexivity.
    assert (Hq1 : loop_quit w1 = loop_quit w) by reflexivity.
    destruct (IH (S k) w1) as (Hs & Hq & Hg); [lia | lia |].
    cbv beta iota zeta.
    rewrite Hs, Hq, Hg, Hg1, Hs1, Hq1.
    repeat split; try reflexivity.
    rewrite <- app_assoc. reflexivity.
Qed.

(** A poll that finds the subprocess running while the counter is still
    positive: SIGTERM when the counter reaches zero, nothing before. *)
Lemma waitpid_timeout_running_early (w : World) :
  0 < reap_try (app w) < 2 ^ 31 ->
  waitpid_timeout 0 w =
    (true,
     if reap_try (app w) =? 1
     then kill (gdb_pid (app w)) SIGTERM (set_reap_try 0 w)
     else set_reap_try (reap_try (app w) - 1) w).
Proof.
  intros H. unfold waitpid_timeout.
  rewrite gint_wrap_small by lia.
  destruct w as [[ps ts g r st] i o e sg q]; simpl in *.
  destruct (r =? 1) eqn:E.
  - apply Z.eqb_eq in E. subst r. reflexivity.
  - apply Z.eqb_neq in E.
    destruct (r - 1 =? 0) eqn:E0; [apply Z.eqb_eq in E0; lia|].
    destruct (r - 1 <? 0) eqn:E1; [apply Z.ltb_lt in E1; lia|reflexivity].
Qed.

Lemma timeout_source_never_exits (ticks : nat) :
  forall (k : nat) (w : World),
    0 < reap_try (app w) < 2 ^ 31 ->
    Z.of_nat ticks < 2 ^ 31 ->
    let w' := timeout_source never_exits k ticks w in
    signals w' =
      (signals w ++ late_signals (gdb_pid (app w)) (reap_try (app w)) ticks)%list
    /\ loop_quit w' = loop_quit w.
Proof.
  induction ticks as [|t IH]; intros k w Hr Hb.
  - unfold late_signals. simpl.
    destruct (0 <? reap_try (app w)) eqn:E; [|apply Z.ltb_ge in E; lia].
    rewrite app_nil_r. auto.
  - cbn [timeout_source]. change (never_exits k) with 0.
    rewrite waitpid_timeout_running_early by lia.
    cbv beta iota zeta.
    destruct (reap_try (app w) =? 1) eqn:E1.
    + apply Z.eqb_eq in E1.
      set (w1 := kill _ _ _).
      destruct (timeout_source_late t (S k) w1) as (Hs & Hq & _).
      { simpl. lia. }
      { simpl. lia. }
      rewrite Hs, Hq. split; [|reflexivity].
      unfold late_signals. rewrite E1.
      destruct (Z.of_nat (S t) <? 1) eqn:E; [apply Z.ltb_lt in E; lia|].
      subst w1. cbn [signals kill set_reap_try with_app gdb_pid app].
      rewrite <- app_assoc. simpl.
      replace (t - 0)%nat with t by lia. reflexivity.
    + apply Z.eqb_neq in E1.
      set (w1 := set_reap_try _ _).
      assert (Hr1 : reap_try (app w1) = reap_try (app w) - 1) by reflexivity.
      destruct (IH (S k) w1) as (Hs & Hq); [lia | lia |].
      rewrite Hs, Hq, Hr1. split; [|reflexivity].
      change (signals w1) with (signals w).
      change (gdb_pid (app w1)) with (gdb_pid (app w)).
      f_equal. unfold late_signals.
      destruct (Z.of_nat t <? reap_try (app w) - 1) eqn:Ea;
        destruct (Z.of_nat (S t) <? reap_try (app w)) eqn:Eb;
        try reflexivity.
      * apply Z.ltb_lt in Ea. apply Z.ltb_ge in Eb. lia.
      * apply Z.ltb_ge in Ea. apply Z.ltb_lt in Eb. lia.
      * do 2 f_equal. apply Z.ltb_ge in Ea. lia.
Qed.

(** Any poll that does not return 0 ends the polling: the loop is told to
    quit, nothing is signalled, the timer is not armed again. *)
Lemma waitpid_timeout_not_running (pid : Z) (w : World) :
  pid <> 0 ->
  exists w',
    waitpid_timeout pid w = (false, w')
    /\ loop_quit w' = true
    /\ signals w' = signals w.
Proof.
  intros H. unfold waitpid_timeout.
  destruct (pid =? -1) eqn:E1.
  - eexists. split; [reflexivity|]. split; reflexivity.
  - destruct (pid =? 0) eqn:E0; [apply Z.eqb_eq in E0; contradiction|].
    eexists. split; [reflexivity|]. split; reflexivity.
Qed.

Lemma waitpid_timeout_zero_again (w : World) :
  fst (waitpid_timeout 0 w) = true.
Proof. reflexivity. Qed.

(** The timer up to the first poll that does not return 0: it behaves as
    for a subprocess that never exits until that poll, which ends it,
    whatever number of later expiries is observed. *)
Lemma timeout_source_until_exit (waitpid : nat -> Z) (a : nat) :
  forall (k b : nat) (w : World),
    (forall j, (k <= j < k + a)%nat -> waitpid j = 0) ->
    waitpid (k + a)%nat <> 0 ->
    timeout_source waitpid k (a + S b) w =
      snd (waitpid_timeout (waitpid (k + a)%nat)
             (timeout_source never_exits k a w)).
Proof.
  induction a as [|a IH]; intros k b w Hz Hnz.
  - rewrite Nat.add_0_r in *. cbn [Nat.add timeout_source].
    destruct (waitpid_timeout_not_running (waitpid k) w Hnz) as (w' & E & _).
    rewrite E. reflexivity.
  - cbn [Nat.add timeout_source]. change (never_exits k) with 0.
    rewrite (Hz k) by lia.
    pose proof (waitpid_timeout_zero_again w) as Hag.
    destruct (waitpid_timeout 0 w) as [again w1]. simpl in Hag. subst again.
    rewrite IH.
    + replace (S k + a)%nat with (k + S a)%nat by lia. reflexivity.
    + intros j Hj. apply Hz. lia.
    + replace (S k + a)%nat with (k + S a)%nat by lia. exact Hnz.
Qed.

Lemma reap_gdb_never_exits (ticks : nat) (w : World) :
  Z.of_nat ticks < 2 ^ 31 ->
  signals (reap_gdb never_exits ticks w) =
    (signals w ++ escalation (gdb_pid (app w)) (S ticks))%list
  /\ loop_quit (reap_gdb never_exits ticks w) = loop_quit w.
Proof.
  intros Hb. unfold reap_gdb. change (never_exits 0) with 0.
  set (w0 := if State_eqb _ _ then w else _).
  assert (Hs0 : signals w0 = signals w) by (subst w0; destruct State_eqb; reflexivity).
  assert (Hq0 : loop_quit w0 = loop_quit w) by (subst w0; destruct State_eqb; reflexivity).
  assert (Hg0 : gdb_pid (app w0) = gdb_pid (app w)) by (subst w0; destruct State_eqb; reflexivity).
  rewrite waitpid_timeout_running_early by (simpl; unfold REAP_RETRY_COUNT; lia).
  cbv beta iota zeta.
  change (reap_try (app (set_reap_try REAP_RETRY_COUNT w0)) =? 1) with false.
  cbv iota.
  set (w1 := set_reap_try _ _).
  destruct (timeout_source_never_exits ticks 1 w1) as (Hs & Hq);
    [simpl; unfold REAP_RETRY_COUNT; lia | lia |].
  rewrite Hs, Hq.
  change (signals w1) with (signals w0). change (loop_quit w1) with (loop_quit w0).
  change (gdb_pid (app w1)) with (gdb_pid (app w0)).
  change (reap_try (app w1)) with 4.
  rewrite Hs0, Hq0, Hg0. split; [|reflexivity].
  f_equal. unfold escalation, late_signals, REAP_RETRY_COUNT.
  destruct (Z.of_nat ticks <? 4) eqn:Ea;
    destruct (Z.of_nat (S ticks) <? 5) eqn:Eb; try reflexivity.
  - apply Z.ltb_lt in Ea. apply Z.ltb_ge in Eb. lia.
  - apply Z.ltb_ge in Ea. apply Z.ltb_lt in Eb. lia.
Qed.

Lemma reap_gdb_until_exit (waitpid : nat -> Z) (k ticks : nat) (w : World) :
  Z.of_nat k < 2 ^ 31 ->
  (k <= ticks)%nat ->
  (forall j, (j < k)%nat -> waitpid j = 0) ->
  waitpid k <> 0 ->
  reap_gdb waitpid ticks w = reap_gdb waitpid k w
  /\ loop_quit (reap_gdb waitpid k w) = true
  /\ signals (reap_gdb waitpid k w) =
       (signals w ++ escalation (gdb_pid (app w)) k)%list.
Proof.
  intros Hb Hk Hz Hnz.
  destruct k as [|k].
  - (* the very first poll sees the exit *)
    unfold reap_gdb.
    set (w0 := if State_eqb _ _ then w else _).
    assert (Hs0 : signals w0 = signals w) by (subst w0; destruct State_eqb; reflexivity).
    destruct (waitpid_timeout_not_running (waitpid O)
                (set_reap_try REAP_RETRY_COUNT w0) Hnz) as (w' & E & Hq & Hs).
    rewrite E. repeat split; [exact Hq|].
    rewrite Hs. change (signals (set_reap_try REAP_RETRY_COUNT w0)) with (signals w0).
    rewrite Hs0. unfold escalation, late_signals. simpl. rewrite app_nil_r. reflexivity.
  - assert (E : forall b, reap_gdb waitpid (k + S b) w =
                snd (waitpid_timeout (waitpid (S k)) (reap_gdb never_exits k w))).
    { intros b. unfold reap_gdb. change (never_exits 0) with 0.
      rewrite (Hz O) by lia.
      set (w0 := set_reap_try _ _).
      pose proof (waitpid_timeout_zero_again w0) as Hag.
      destruct (waitpid_timeout 0 w0) as [again w1]. simpl in Hag. subst again.
      rewrite timeout_source_until_exit; [reflexivity | | exact Hnz].
      intros j Hj. apply Hz. lia. }
    assert (E1 : reap_gdb waitpid ticks w =
                 snd (waitpid_timeout (waitpid (S k)) (reap_gdb never_exits k w))).
    { replace ticks with (k + S (ticks - S k))%nat by lia. apply E. }
    assert (E2 : reap_gdb waitpid (S k) w =
                 snd (waitpid_timeout (waitpid (S k)) (reap_gdb never_exits k w))).
    { replace (S k) with (k + 1)%nat at 1 by lia. apply E. }
    rewrite E1, E2.
    destruct (waitpid_timeout_not_running (waitpid (S k))
                (reap_gdb never_exits k w) Hnz) as (w' & Ew & Hq & Hs).
    rewrite Ew. cbn [snd]. repeat split; [exact Hq|].
    rewrite Hs. apply reap_gdb_never_exits. lia.
Qed.

(** C5 (as amended): started by [reap_gdb] with the counter at
    REAP_RETRY_COUNT and polling a subprocess that never exits, SIGTERM is
    sent exactly once, at the REAP_RETRY_COUNT-th failed poll, and SIGKILL
    at the next failed poll and again at every later one; the loop is not
    told to quit.  When a poll does not return 0 (exit status observed, or
    the poll failed), that poll quits the loop, the timer ends and nothing
    is signalled afterwards: observing more expiries changes nothing. *)
Theorem reap_escalation (w : World) (ticks : nat) :
  Z.of_nat ticks < 2 ^ 31 ->
  (signals (reap_gdb never_exits ticks w) =
     (signals w ++ escalation (gdb_pid (app w)) (S ticks))%list
   /\ loop_quit (reap_gdb never_exits ticks w) = loop_quit w)
  /\ (forall (waitpid : nat -> Z) (k : nat),
        (k <= ticks)%nat ->
        (forall j, (j < k)%nat -> waitpid j = 0) ->
        waitpid k <> 0 ->
        reap_gdb waitpid ticks w = reap_gdb waitpid k w
        /\ loop_quit (reap_gdb waitpid k w) = true
        /\ signals (reap_gdb waitpid k w) =
             (signals w ++ escalation (gdb_pid (app w)) k)%list).
Proof.
  intros Hb. split.
  - apply reap_gdb_never_exits. exact Hb.
  - intros waitpid k Hk Hz Hnz. apply reap_gdb_until_exit; auto. lia.
Qed.

(** The escalation of [reap_escalation] over eight polls, and an exit
    observed at the third poll with ten expiries watched. *)
Lemma reap_escalation_witness :
  Z.of_nat 10 < 2 ^ 31
  /\ signals (reap_gdb never_exits 7 (session_start 77 [111])) =
       [(77, SIGTERM); (77, SIGKILL); (77, SIGKILL); (77, SIGKILL)]
  /\ reap_gdb (exits_at 2 77) 10 (session_start 77 [111]) =
       reap_gdb (exits_at 2 77) 2 (session_start 77 [111])
  /\ signals (reap_gdb (exits_at 2 77) 2 (session_start 77 [111])) = [].
Proof.
  split; [reflexivity|].
  split.
  - exact (proj1 (proj1 (reap_escalation (session_start 77 [111]) 7
                           ltac:(reflexivity)))).
  - pose proof (proj2 (reap_escalation (session_start 77 [111]) 10
                         ltac:(reflexivity))
                  (exits_at 2 77) 2%nat) as H.
    destruct H as (H1 & _ & H3).
    + apply Nat.leb_le. reflexivity.
    + intros j Hj. unfold exits_at.
      apply Nat.ltb_lt in Hj. rewrite Hj. reflexivity.
    + discriminate.
    + split; [exact H1 | exact H3].
Defined.

(** C5 (as stated) fails: after seven polls of a subprocess that never
    exits SIGKILL has been sent twice, at the sixth and at the seventh
    poll, not once. *)
Lemma reap_sigkill_repeats :
  signals (reap_gdb never_exits 6 (session_start 77 [111])) =
    [(77, SIGTERM); (77, SIGKILL); (77, SIGKILL)]
  /\ signals (reap_gdb never_exits 6 (session_start 77 [111])) <>
       spec_escalation 77 7.
Proof.
  split; [reflexivity|]. vm_compute. discriminate.
Qed.

(** C10: a poll on which [waitpid] itself fails (returns -1) tells the
    loop to quit and returns FALSE, so that the timer is not armed (again),
    and sends no signal, whatever the counter is; when the first poll of
    [reap_gdb] fails, no other poll is made and no signal is sent. *)
Theorem poll_failure_quits (w : World) :
  fst (waitpid_timeout (-1) w) = false
  /\ loop_quit (snd (waitpid_timeout (-1) w)) = true
  /\ signals (snd (waitpid_timeout (-1) w)) = signals w
  /\ forall ticks : nat,
       loop_quit (reap_gdb (fun _ => -1) ticks w) = true
       /\ signals (reap_gdb (fun _ => -1) ticks w) = signals w
       /\ reap_try (app (reap_gdb (fun _ => -1) ticks w)) =
            REAP_RETRY_COUNT - 1.
Proof.
  repeat split.
  all: unfold reap_gdb; destruct (State_eqb (state (app w)) STATE_DONE);
    reflexivity.
Qed.

(** ** Attach failure *)

(** [strncmp (s, lit, strlen (lit)) == 0] says that [s] begins with
    [lit]. *)
Lemma strncmp_zero_iff_prefix (lit : string) :
  nul_free lit ->
  forall s : string,
    strncmp s lit (strlen lit) = 0 <-> exists tail, s = lit ++ tail.
Proof.
  induction lit as [|b lit IH]; intros Hnf s.
  - simpl. split; [intros _; exists s; reflexivity | intros _; reflexivity].
  - destruct Hnf as [Hb Hnf]. cbn [strlen String.length strncmp].
    destruct s as [|a s].
    + split.
      * intros H. apply uchar_inj in H.
        exfalso. apply Hb. congruence.
      * intros [tail H]. discriminate.
    + destruct (Ascii.eqb a b) eqn:E.
      * apply Ascii.eqb_eq in E. subst b.
        change (String.length lit) with (strlen lit).
        rewrite (IH Hnf s). split.
        -- intros [tail H]. exists tail. simpl. rewrite H. reflexivity.
        -- intros [tail H]. exists tail. simpl in H. congruence.
      * apply Ascii.eqb_neq in E. split.
        -- intros H. apply uchar_inj in H. contradiction.
        -- intros [tail H]. simpl in H. congruence.
Qed.

Lemma ptrace_test (l : string) :
  (strncmp l "ptrace:" (strlen "ptrace:") =? 0) = true <-> begins_with_ptrace l.
Proof.
  rewrite Z.eqb_eq. apply strncmp_zero_iff_prefix.
  simpl. repeat split; discriminate.
Qed.

(** [attach_ok] returns FALSE exactly when some line begins with
    [ptrace:], and [*errbuf] is then the first such line. *)
Lemma attach_ok_false (lines : list string) :
  fst (attach_ok lines) = false <->
  exists l, In l lines /\ begins_with_ptrace l.
Proof.
  induction lines as [|l iter IH]; cbn [attach_ok In fst].
  - split; [discriminate | intros (l & [] & _)].
  - destruct (strncmp l "ptrace:" (strlen "ptrace:") =? 0) eqn:E.
    + split; [|reflexivity]. intros _. exists l. split; [now left|].
      apply ptrace_test. exact E.
    + rewrite IH. split.
      * intros (l' & Hin & Hb). exists l'. split; [now right | exact Hb].
      * intros (l' & [Heq | Hin] & Hb).
        -- subst l'. apply ptrace_test in Hb. congruence.
        -- exists l'. split; assumption.
Qed.

Lemma attach_ok_errbuf (lines : list string) :
  fst (attach_ok lines) = false ->
  exists before msg after,
    attach_ok lines = (false, Some msg)
    /\ lines = (before ++ msg :: after)%list
    /\ begins_with_ptrace msg
    /\ forall l, In l before -> ~ begins_with_ptrace l.
Proof.
  induction lines as [|l iter IH]; cbn [attach_ok In fst]; [discriminate|].
  destruct (strncmp l "ptrace:" (strlen "ptrace:") =? 0) eqn:E.
  - intros _. exists [], l, iter. repeat split.
    + apply ptrace_test. exact E.
    + intros l' [].
  - intros H. destruct (IH H) as (before & msg & after & Ha & Hl & Hb & Hn).
    exists (l :: before), msg, after. repeat split; auto.
    + rewrite Hl. reflexivity.
    + intros l' [Heq | Hin]; [|auto].
      subst l'. intros Hb'. apply ptrace_test in Hb'. congruence.
Qed.

Lemma attach_ok_true (lines : list string) :
  fst (attach_ok lines) = true -> attach_ok lines = (true, None).
Proof.
  induction lines as [|l iter IH]; cbn [attach_ok In fst]; [reflexivity|].
  destruct (strncmp l "ptrace:" (strlen "ptrace:") =? 0); [discriminate|exact IH].
Qed.

(** ** Steps of the conversation *)

Arguments string_of_gint : simpl never.
Arguments get_thread_ids : simpl never.
Arguments attach_ok : simpl never.

(** With a pid left, the callback handles the turn in the state it is in,
    for the pid at the front of the queue. *)
Lemma turn_with_pid (lines : list string) (w : World) (p : Z) (rest : list Z) :
  pids (app w) = p :: rest ->
  turn lines w = fst (handle_turn p lines w)
  /\ released lines w = snd (handle_turn p lines w).
Proof.
  intros H. unfold turn, released, current_pid, check_pids.
  rewrite H. split; reflexivity.
Qed.

(** With no pid left, it sends [quit], whatever the state was. *)
Lemma turn_without_pid (lines : list string) (w : World) :
  pids (app w) = [] ->
  turn lines w = send_command "quit" (set_state STATE_DONE w).
Proof.
  intros H. unfold turn, current_pid, check_pids. rewrite H. reflexivity.
Qed.

Lemma turn_in_attach (lines : list string) (w : World) :
  state (app w) = STATE_ATTACH ->
  gdb_stdin (turn lines w) =
    (gdb_stdin w ++ [next_target_command (pids (app w))])%list
  /\ pids (app (turn lines w)) = pids (app w)
  /\ stderr (turn lines w) = stderr w
  /\ stdout (turn lines w) = stdout w.
Proof.
  intros Hst. destruct w as [[ps ts g r st] i o e sg q]. simpl in Hst. subst st.
  destruct ps as [|p rest]; repeat split; reflexivity.
Qed.

(** C7: in [STATE_CHECK_THREADS] the attach failure is detected exactly
    when some line of the turn, at any position, begins with [ptrace:].
    The failure is then reported on the error stream with the pid and the
    first such line of gdb, [p 0] is sent, the pid is dropped from the
    queue and the state is [STATE_ATTACH], so that the next turn attaches
    to the next pid (or quits when none is left).  Without such a line
    [info threads] is sent, nothing is reported and the pid stays. *)
Theorem attach_failure_detection
    (w : World) (lines : list string) (p : Z) (rest : list Z) :
  state (app w) = STATE_CHECK_THREADS ->
  pids (app w) = p :: rest ->
  (fst (attach_ok lines) = false <->
     exists l, In l lines /\ begins_with_ptrace l)
  /\ ((exists l, In l lines /\ begins_with_ptrace l) ->
      exists before msg after,
        lines = (before ++ msg :: after)%list
        /\ begins_with_ptrace msg
        /\ (forall l, In l before -> ~ begins_with_ptrace l)
        /\ stderr (turn lines w) =
             (stderr w ++ [("Skipping pid " ++ string_of_gint p ++ ": "
                            ++ msg ++ nl)%string])%list
        /\ gdb_stdin (turn lines w) = (gdb_stdin w ++ [("p 0" ++ nl)%string])%list
        /\ pids (app (turn lines w)) = rest
        /\ state (app (turn lines w)) = STATE_ATTACH
        /\ forall lines', gdb_stdin (turn lines' (turn lines w)) =
             (gdb_stdin w ++ [("p 0" ++ nl)%string; next_target_command rest])%list)
  /\ (~ (exists l, In l lines /\ begins_with_ptrace l) ->
      stderr (turn lines w) = stderr w
      /\ gdb_stdin (turn lines w) = (gdb_stdin w ++ [("info threads" ++ nl)%string])%list
      /\ pids (app (turn lines w)) = p :: rest
      /\ state (app (turn lines w)) = STATE_BACKTRACE).
Proof.
  intros Hst Hp. split; [apply attach_ok_false|].
  destruct (turn_with_pid lines w p rest Hp) as [Ht _].
  destruct w as [[ps ts g r st] i o e sg q]. simpl in Hst, Hp. subst st ps.
  split.
  - intros Hex. apply attach_ok_false in Hex.
    destruct (attach_ok_errbuf lines Hex) as (before & msg & after & Ha & Hl & Hb & Hn).
    exists before, msg, after.
    assert (E : turn lines (mkWorld (mkApp (p :: rest) ts g r STATE_CHECK_THREADS)
                              i o e sg q) =
                mkWorld (mkApp rest ts g r STATE_ATTACH)
                  (i ++ [("p 0" ++ nl)%string])%list o
                  (e ++ [("Skipping pid " ++ string_of_gint p ++ ": "
                          ++ msg ++ nl)%string])%list sg q).
    { rewrite Ht. unfold handle_turn. cbn [state app]. rewrite Ha. reflexivity. }
    rewrite E. repeat split; auto.
    intros lines'.
    destruct (turn_in_attach lines'
                (mkWorld (mkApp rest ts g r STATE_ATTACH)
                   (i ++ [("p 0" ++ nl)%string])%list o
                   (e ++ [("Skipping pid " ++ string_of_gint p ++ ": "
                           ++ msg ++ nl)%string])%list sg q) eq_refl) as (Hs & _).
    rewrite Hs. cbn [gdb_stdin pids app]. rewrite <- app_assoc. reflexivity.
  - intros Hnex.
    assert (Hok : fst (attach_ok lines) = true).
    { destruct (fst (attach_ok lines)) eqn:E; [reflexivity|].
      exfalso. apply Hnex. apply attach_ok_false. exact E. }
    apply attach_ok_true in Hok.
    rewrite Ht. unfold handle_turn. cbn [state app]. rewrite Hok.
    repeat split; reflexivity.
Qed.

(** [attach_failure_detection] on a turn whose second line carries the
    marker, with a second pid waiting. *)
Lemma attach_failure_detection_witness :
  let w := mkWorld (mkApp [111; 222] [] 77 0 STATE_CHECK_THREADS)
             ["attach 111" ++ nl] [] [] [] false in
  let lines := ["Attaching to process 111";
                "ptrace: Operation not permitted."; "more"] in
  state (app w) = STATE_CHECK_THREADS
  /\ pids (app w) = [111; 222]
  /\ (fst (attach_ok lines) = false <->
        exists l, In l lines /\ begins_with_ptrace l)
  /\ stderr (turn lines w) =
       ["Skipping pid 111: ptrace: Operation not permitted." ++ nl]
  /\ gdb_stdin (turn [] (turn lines w)) =
       ["attach 111" ++ nl; "p 0" ++ nl; "attach 222" ++ nl].
Proof.
  intros w lines.
  pose proof (attach_failure_detection w lines 111 [222] eq_refl eq_refl)
    as (Hiff & Hfail & _).
  split; [reflexivity|]. split; [reflexivity|]. split; [exact Hiff|].
  split; reflexivity.
Defined.

(** ** Thread identifiers *)

(** Once a digit has been seen, the scan keeps the digits that follow and
    cuts the line at the first other character. *)
Lemma scan_line_in_run (ds rest : string) :
  digits_only ds = true ->
  no_digit_ahead rest = true ->
  scan_line true (ds ++ rest) = (true, ds).
Proof.
  intros Hd Hr. induction ds as [|c ds IH].
  - destruct rest as [|c rest]; [reflexivity|].
    simpl in *. apply negb_true_iff in Hr. rewrite Hr. reflexivity.
  - simpl in Hd. apply andb_true_iff in Hd. destruct Hd as [Hc Hd].
    simpl. rewrite Hc, (IH Hd). reflexivity.
Qed.

(** Before any digit the scan walks over the characters that are not
    digits. *)
Lemma scan_line_before_run (pre s : string) :
  digit_free pre = true ->
  scan_line false (pre ++ s) =
    (fst (scan_line false s), pre ++ snd (scan_line false s)).
Proof.
  intros Hp. induction pre as [|c pre IH].
  - simpl. destruct (scan_line false s). reflexivity.
  - simpl in Hp. apply andb_true_iff in Hp. destruct Hp as [Hc Hp].
    apply negb_true_iff in Hc.
    simpl. rewrite Hc, (IH Hp). reflexivity.
Qed.

Lemma scan_line_no_digit (s : string) :
  digit_free s = true -> scan_line false s = (false, s).
Proof.
  intros H. induction s as [|c s IH]; [reflexivity|].
  simpl in H. apply andb_true_iff in H. destruct H as [Hc Hs].
  apply negb_true_iff in Hc. simpl. rewrite Hc, (IH Hs). reflexivity.
Qed.

(** The scan of a line: everything up to the end of its first run of
    digits. *)
Lemma scan_line_first_run (pre ds rest : string) :
  digit_free pre = true ->
  ds <> "" ->
  digits_only ds = true ->
  no_digit_ahead rest = true ->
  scan_line false (pre ++ ds ++ rest) = (true, pre ++ ds).
Proof.
  intros Hp Hne Hd Hr.
  rewrite scan_line_before_run by exact Hp.
  destruct ds as [|c ds]; [contradiction|].
  simpl in Hd. apply andb_true_iff in Hd. destruct Hd as [Hc Hd].
  cbn [append scan_line]. rewrite Hc, (scan_line_in_run ds rest Hd Hr).
  reflexivity.
Qed.

(** The scan only ever cuts the line short. *)
Lemma scan_line_truncates (s : string) :
  forall found, truncation_of s (snd (scan_line found s)).
Proof.
  induction s as [|c s IH]; intros found.
  - exists "". reflexivity.
  - simpl. destruct (g_ascii_isdigit c).
    + destruct (IH true) as [rest E].
      destruct (scan_line true s) as [f r]. simpl in *.
      exists rest. simpl. congruence.
    + destruct found.
      * exists (String c s). reflexivity.
      * destruct (IH false) as [rest E].
        destruct (scan_line false s) as [f r]. simpl in *.
        exists rest. simpl. congruence.
Qed.

Lemma line_ids_unfold (l : string) :
  line_ids l =
    match strstr l "Thread" with
    | None => []
    | Some _ => if fst (scan_line false l) then [snd (scan_line false l)] else []
    end.
Proof.
  unfold line_ids, get_thread_ids. cbn [get_thread_ids_loop].
  destruct (strstr l "Thread"); [|reflexivity].
  destruct (scan_line false l) as [[|] l']; reflexivity.
Qed.

(** The loop over the lines: identifiers are pushed in front of those of
    the earlier lines; each line is left as [line_after] gives it. *)
Lemma get_thread_ids_loop_spec (lines : list string) :
  forall acc : list string,
    get_thread_ids_loop lines acc =
      ((rev (ids_in_listing_order lines) ++ acc)%list, map line_after lines).
Proof.
  induction lines as [|l iter IH]; intros acc; [reflexivity|].
  cbn [get_thread_ids_loop ids_in_listing_order flat_map map].
  fold (ids_in_listing_order iter).
  rewrite rev_app_distr, line_ids_unfold. unfold line_after.
  destruct (strstr l "Thread").
  - destruct (scan_line false l) as [[|] l']; cbn [fst snd];
      rewrite IH; cbn [rev List.app]; rewrite <- ?app_assoc; reflexivity.
  - rewrite IH. cbn [rev]. rewrite app_nil_r. reflexivity.
Qed.

Lemma get_thread_ids_spec (lines : list string) :
  get_thread_ids lines =
    (rev (ids_in_listing_order lines), map line_after lines).
Proof.
  unfold get_thread_ids. rewrite get_thread_ids_loop_spec, app_nil_r.
  reflexivity.
Qed.

(** C4 (as amended): for a line that contains [Thread], the identifier
    taken by [get_thread_ids] is the line from its start up to the end of
    the first maximal run of digits of the whole line, wherever that run
    lies with respect to the token; a line without the token, or without
    any digit, yields no identifier. *)
Theorem thread_id_of_line (line : string) :
  (strstr line "Thread" = None -> line_ids line = [])
  /\ (digit_free line = true -> line_ids line = [])
  /\ (forall pre ds rest : string,
        strstr line "Thread" <> None ->
        line = pre ++ ds ++ rest ->
        digit_free pre = true ->
        ds <> "" ->
        digits_only ds = true ->
        no_digit_ahead rest = true ->
        line_ids line = [pre ++ ds]).
Proof.
  rewrite line_ids_unfold. repeat split.
  - intros H. rewrite H. reflexivity.
  - intros H. rewrite (scan_line_no_digit line H).
    destruct (strstr line "Thread"); reflexivity.
  - intros pre ds rest Ht El Hp Hne Hd Hr.
    destruct (strstr line "Thread"); [|contradiction].
    rewrite El, (scan_line_first_run pre ds rest Hp Hne Hd Hr). reflexivity.
Qed.

(** [thread_id_of_line] on a line of gdb, on a line whose digits all
    precede the token, and on lines without token or without digit. *)
Lemma thread_id_of_line_witness :
  line_ids "* 2 Thread 0x7f (LWP 5)" = ["* 2"]
  /\ line_ids "12 Thread" = ["12"]
  /\ line_ids "process 12" = []
  /\ line_ids "Thread x" = [].
Proof.
  split.
  - apply (proj2 (proj2 (thread_id_of_line "* 2 Thread 0x7f (LWP 5)"))
             "* " "2" " Thread 0x7f (LWP 5)");
      [discriminate | reflexivity | reflexivity | discriminate
      | reflexivity | reflexivity].
  - split.
    + apply (proj2 (proj2 (thread_id_of_line "12 Thread"))
               "" "12" " Thread");
        [discriminate | reflexivity | reflexivity | discriminate
        | reflexivity | reflexivity].
    + split.
      * apply (proj1 (thread_id_of_line "process 12")). reflexivity.
      * apply (proj1 (proj2 (thread_id_of_line "Thread x"))). reflexivity.
Defined.

(** C4 (as stated) fails: a line whose only digits precede the token does
    yield an identifier, and on a line of gdb the identifier is not the
    run of digits that follows the token. *)
Lemma thread_id_not_after_token :
  (line_ids "12 Thread" = ["12"] /\ spec_thread_id "12 Thread" = None)
  /\ (line_ids "* 2 Thread 0x7f (LWP 5)" = ["* 2"]
      /\ spec_thread_id "* 2 Thread 0x7f (LWP 5)" = Some "0").
Proof.
  repeat split; reflexivity.
Qed.

Lemma print_lines_frame (lines : list string) :
  forall w : World,
    app (print_lines lines w) = app w
    /\ gdb_stdin (print_lines lines w) = gdb_stdin w
    /\ stderr (print_lines lines w) = stderr w
    /\ signals (print_lines lines w) = signals w
    /\ loop_quit (print_lines lines w) = loop_quit w.
Proof.
  induction lines as [|l iter IH]; intros w; [repeat split|].
  cbn [print_lines]. destruct (IH (g_print (l ++ nl) w)) as (A & B & C & D & E).
  rewrite A, B, C, D, E. repeat split.
Qed.

(** A backtrace turn with identifiers still queued: the front one is
    popped and its command sent. *)
Lemma turn_print_backtrace_next
    (lines : list string) (w : World) (t : string) (ts : list string) :
  state (app w) = STATE_PRINT_BACKTRACE ->
  pids (app w) <> [] ->
  threads (app w) = t :: ts ->
  gdb_stdin (turn lines w) = (gdb_stdin w ++ [thread_command t])%list
  /\ threads (app (turn lines w)) = ts
  /\ pids (app (turn lines w)) = pids (app w)
  /\ state (app (turn lines w)) = STATE_PRINT_BACKTRACE.
Proof.
  intros Hst Hp Hth.
  destruct (pids (app w)) as [|p rest] eqn:Ep; [contradiction|].
  destruct (turn_with_pid lines w p rest Ep) as [Ht _]. rewrite Ht.
  unfold handle_turn. rewrite Hst.
  destruct (print_lines_frame lines w) as (A & B & _).
  set (w1 := print_lines lines w) in *.
  rewrite A, Hth. unfold send_thread_backtrace. rewrite A, Hth.
  destruct w1 as [a1 i1 o1 e1 s1 q1]. simpl in A, B. subst a1 i1.
  destruct (app w) as [ps th g r st]. simpl in *. subst.
  repeat split; reflexivity.
Qed.

(** While identifiers are queued, each backtrace turn sends the command of
    the next one, front first. *)
Lemma run_print_backtrace (bts : list (list string)) :
  forall w : World,
    state (app w) = STATE_PRINT_BACKTRACE ->
    pids (app w) <> [] ->
    (List.length bts <= List.length (threads (app w)))%nat ->
    gdb_stdin (run bts w) =
      (gdb_stdin w
       ++ map thread_command (firstn (List.length bts) (threads (app w))))%list
    /\ threads (app (run bts w)) = skipn (List.length bts) (threads (app w))
    /\ pids (app (run bts w)) = pids (app w)
    /\ state (app (run bts w)) = STATE_PRINT_BACKTRACE.
Proof.
  induction bts as [|l bts IH]; intros w Hst Hp Hlen.
  - simpl. rewrite app_nil_r. auto.
  - destruct (threads (app w)) as [|t ts] eqn:Eth; [simpl in Hlen; lia|].
    destruct (turn_print_backtrace_next l w t ts Hst Hp Eth) as (A & B & C & D).
    cbn [run]. destruct (IH (turn l w)) as (A' & B' & C' & D').
    + exact D.
    + rewrite C. exact Hp.
    + rewrite B. simpl in Hlen. lia.
    + rewrite A', B', C', D', A, B, C.
      cbn [List.length firstn skipn map]. rewrite <- app_assoc.
      repeat split; reflexivity.
Qed.

(** The thread-listing turn in [STATE_BACKTRACE], by cases. *)
Lemma turn_backtrace (lines : list string) (w : World) (p : Z) (rest : list Z) :
  state (app w) = STATE_BACKTRACE ->
  pids (app w) = p :: rest ->
  turn lines w =
    let w1 := g_print ("Backtrace for pid " ++ string_of_gint p ++ nl) w in
    match lines with
    | [] => set_state STATE_PRINT_BACKTRACE (send_command "backtrace" w1)
    | _ :: _ =>
        match fst (get_thread_ids lines) with
        | [] => set_state STATE_DETACH (set_threads [] w1)
        | t :: ts =>
            set_state STATE_PRINT_BACKTRACE
              (send_command ("pstack_thread " ++ t) (set_threads ts w1))
        end
    end.
Proof.
  intros Hst Hp.
  destruct (turn_with_pid lines w p rest Hp) as [Ht _]. rewrite Ht.
  unfold handle_turn. rewrite Hst.
  destruct lines as [|l iter]; [reflexivity|].
  destruct (get_thread_ids (l :: iter)) as [ids ls].
  destruct ids as [|t ts]; reflexivity.
Qed.

(** C2 (as amended): [get_thread_ids] returns the identifiers of the
    matching lines in the reverse of the order in which the lines appear
    in the listing, without dropping duplicates; the backtrace commands
    are sent from the front of that queue, hence for the last matching
    line first. *)
Theorem thread_ids_reverse_listing_order
    (w : World) (lines : list string) (bts : list (list string)) :
  state (app w) = STATE_BACKTRACE ->
  pids (app w) <> [] ->
  (List.length bts < List.length (ids_in_listing_order lines))%nat ->
  fst (get_thread_ids lines) = rev (ids_in_listing_order lines)
  /\ gdb_stdin (run (lines :: bts) w) =
       (gdb_stdin w
        ++ map thread_command
             (firstn (S (List.length bts))
                (rev (ids_in_listing_order lines))))%list.
Proof.
  intros Hst Hp Hlen.
  assert (Hids : fst (get_thread_ids lines) = rev (ids_in_listing_order lines))
    by (rewrite get_thread_ids_spec; reflexivity).
  split; [exact Hids|].
  destruct (pids (app w)) as [|p rest] eqn:Ep; [contradiction|].
  cbn [run]. pose proof (turn_backtrace lines w p rest Hst Ep) as Ht.
  cbv zeta in Ht. rewrite Hids in Ht.
  destruct lines as [|l iter]; [simpl in Hlen; lia|].
  destruct (rev (ids_in_listing_order (l :: iter))) as [|t ts] eqn:Er.
  { apply (f_equal (@List.length string)) in Er.
    rewrite length_rev in Er. cbn [List.length] in Er. lia. }
  set (w1 := turn (l :: iter) w) in *.
  assert (Hlen' : (List.length bts <= List.length ts)%nat).
  { apply (f_equal (@List.length string)) in Er.
    rewrite length_rev in Er. cbn [List.length] in Er. lia. }
  assert (H1 : state (app w1) = STATE_PRINT_BACKTRACE) by (rewrite Ht; reflexivity).
  assert (H2 : pids (app w1) = p :: rest)
    by (rewrite Ht; cbn; exact Ep).
  assert (H3 : threads (app w1) = ts) by (rewrite Ht; reflexivity).
  assert (H4 : gdb_stdin w1 = (gdb_stdin w ++ [thread_command t])%list)
    by (rewrite Ht; reflexivity).
  destruct (run_print_backtrace bts w1 H1) as (A & _).
  - rewrite H2. discriminate.
  - rewrite H3. exact Hlen'.
  - rewrite A, H3, H4. rewrite <- app_assoc. reflexivity.
Qed.

(** [thread_ids_reverse_listing_order] on the listing gdb prints for two
    threads, followed by the first backtrace turn. *)
Lemma thread_ids_reverse_listing_order_witness :
  let w := mkWorld (mkApp [222] [] 77 0 STATE_BACKTRACE) [] [] [] [] false in
  let lines := ["  2 Thread 0x7f (LWP 5)  a ()"; "* 1 Thread 0x7e (LWP 4)  b ()"] in
  fst (get_thread_ids lines) = ["* 1"; "  2"]
  /\ gdb_stdin (run [lines; ["#0  b ()"]] w) =
       [thread_command "* 1"; thread_command "  2"].
Proof.
  intros w lines.
  exact (thread_ids_reverse_listing_order w lines [["#0  b ()"]] eq_refl
           ltac:(discriminate) ltac:(apply Nat.ltb_lt; reflexivity)).
Defined.

(** C2 (as stated) fails: for the two lines of a listing the identifiers
    come out last line first. *)
Lemma thread_ids_not_in_listing_order :
  fst (get_thread_ids ["  2 Thread 0x7f (LWP 5)"; "* 1 Thread 0x7e (LWP 4)"])
    = ["* 1"; "  2"]
  /\ fst (get_thread_ids ["  2 Thread 0x7f (LWP 5)"; "* 1 Thread 0x7e (LWP 4)"])
     <> ids_in_listing_order
          ["  2 Thread 0x7f (LWP 5)"; "* 1 Thread 0x7e (LWP 4)"].
Proof.
  split; [reflexivity|]. vm_compute. discriminate.
Qed.

(** C3 (as amended): in [STATE_BACKTRACE], with a pid at the front of the
    queue, a non-empty turn from which at least one identifier was
    extracted pops the first identifier of the queue, sends its
    [pstack_thread] command and moves to [STATE_PRINT_BACKTRACE]; an empty
    turn sends the plain [backtrace] and moves to
    [STATE_PRINT_BACKTRACE]; a non-empty turn without any identifier moves
    to [STATE_DETACH] instead, and [backtrace] is not sent: of what the
    turn adds to what was written to gdb, nothing begins with
    [backtrace]. *)
Theorem backtrace_turn
    (w : World) (lines : list string) (p : Z) (rest : list Z) :
  state (app w) = STATE_BACKTRACE ->
  pids (app w) = p :: rest ->
  (forall t ts,
      lines <> [] ->
      fst (get_thread_ids lines) = t :: ts ->
      gdb_stdin (turn lines w) = (gdb_stdin w ++ [thread_command t])%list
      /\ threads (app (turn lines w)) = ts
      /\ state (app (turn lines w)) = STATE_PRINT_BACKTRACE)
  /\ (lines = [] ->
      gdb_stdin (turn lines w) = (gdb_stdin w ++ [("backtrace" ++ nl)%string])%list
      /\ state (app (turn lines w)) = STATE_PRINT_BACKTRACE)
  /\ (lines <> [] ->
      fst (get_thread_ids lines) = [] ->
      state (app (turn lines w)) = STATE_DETACH
      /\ gdb_stdin (turn lines w) <>
           (gdb_stdin w ++ [("backtrace" ++ nl)%string])%list
      /\ exists cmds : list string,
           gdb_stdin (turn lines w) = (gdb_stdin w ++ cmds)%list
           /\ Forall (fun c => forall tail : string,
                                 c <> ("backtrace" ++ tail)%string) cmds).
Proof.
  intros Hst Hp. rewrite (turn_backtrace lines w p rest Hst Hp). cbv zeta.
  split; [|split].
  - intros t ts Hne Hids.
    destruct lines as [|l iter]; [contradiction|].
    rewrite Hids. repeat split.
  - intros Hnil. subst lines. split; reflexivity.
  - intros Hne Hids.
    destruct lines as [|l iter]; [contradiction|].
    rewrite Hids. split; [reflexivity|].
    cbn [gdb_stdin set_state set_threads with_app g_print].
    split.
    + intros E. apply (f_equal (@List.length string)) in E.
      rewrite length_app in E. simpl in E. lia.
    + exists []. rewrite app_nil_r. split; [reflexivity | constructor].
Qed.

(** [backtrace_turn] in its three cases. *)
Lemma backtrace_turn_witness :
  let w := mkWorld (mkApp [222] [] 77 0 STATE_BACKTRACE) [] [] [] [] false in
  (gdb_stdin (turn ["* 1 Thread 0x7e (LWP 4)"] w) = [thread_command "* 1"]
   /\ threads (app (turn ["* 1 Thread 0x7e (LWP 4)"] w)) = []
   /\ state (app (turn ["* 1 Thread 0x7e (LWP 4)"] w)) = STATE_PRINT_BACKTRACE)
  /\ (gdb_stdin (turn [] w) = [("backtrace" ++ nl)%string]
      /\ state (app (turn [] w)) = STATE_PRINT_BACKTRACE)
  /\ (state (app (turn ["No threads."] w)) = STATE_DETACH
      /\ exists cmds : list string,
           gdb_stdin (turn ["No threads."] w) = (gdb_stdin w ++ cmds)%list
           /\ Forall (fun c => forall tail : string,
                                 c <> ("backtrace" ++ tail)%string) cmds).
Proof.
  intros w.
  pose proof (backtrace_turn w ["* 1 Thread 0x7e (LWP 4)"] 222 [] eq_refl eq_refl)
    as (H1 & _ & _).
  pose proof (backtrace_turn w [] 222 [] eq_refl eq_refl) as (_ & H2 & _).
  pose proof (backtrace_turn w ["No threads."] 222 [] eq_refl eq_refl)
    as (_ & _ & H3).
  split.
  - apply (H1 "* 1" []); [discriminate | reflexivity].
  - split.
    + apply H2. reflexivity.
    + destruct (H3 ltac:(discriminate) eq_refl) as (Hs & _ & Hc).
      split; [exact Hs | exact Hc].
Defined.

(** C3 (as stated) fails: on a non-empty turn without identifier nothing
    is sent, [backtrace] in particular, and the state becomes
    [STATE_DETACH], not [STATE_PRINT_BACKTRACE]. *)
Lemma backtrace_turn_without_id :
  let w := mkWorld (mkApp [222] [] 77 0 STATE_BACKTRACE)
             [("info threads" ++ nl)%string] [] [] [] false in
  fst (get_thread_ids ["No threads."]) = []
  /\ gdb_stdin (turn ["No threads."] w) = [("info threads" ++ nl)%string]
  /\ state (app (turn ["No threads."] w)) = STATE_DETACH
  /\ state (app (turn ["No threads."] w)) <> STATE_PRINT_BACKTRACE.
Proof.
  repeat split; try reflexivity. discriminate.
Qed.

(** ** The lines of a turn *)

Lemma line_after_truncates (l : string) : truncation_of l (line_after l).
Proof.
  unfold line_after. destruct (strstr l "Thread").
  - apply scan_line_truncates.
  - exists "". clear. induction l as [|c l IH]; [reflexivity|].
    simpl. congruence.
Qed.

Lemma released_cases (lines : list string) (w : World) :
  released lines w =
    match state (app (check_pids w)) with
    | STATE_BACKTRACE => map line_after lines
    | _ => lines
    end.
Proof.
  unfold released, handle_turn.
  destruct (state (app (check_pids w))); try reflexivity.
  - destruct (attach_ok lines) as [[|] buf]; reflexivity.
  - destruct lines as [|l iter]; [reflexivity|].
    rewrite get_thread_ids_spec.
    destruct (rev (ids_in_listing_order (l :: iter))); reflexivity.
  - destruct (threads (app (print_lines lines (check_pids w)))); reflexivity.
Qed.

(** C9 (as amended): every state handler but that of [STATE_BACKTRACE]
    releases the lines as it was handed them.  In [STATE_BACKTRACE]
    [get_thread_ids] writes into the lines: a line that contains [Thread]
    and has a character after its first run of digits is cut at the end of
    that run; the other lines (no [Thread], no digit, or nothing after the
    first run of digits) are left as they were, and no line is ever
    anything but cut short. *)
Theorem turn_lines_released (w : World) (lines : list string) :
  (state (app (check_pids w)) <> STATE_BACKTRACE -> released lines w = lines)
  /\ (state (app (check_pids w)) = STATE_BACKTRACE ->
      released lines w = map line_after lines)
  /\ (forall l, truncation_of l (line_after l))
  /\ (forall l, strstr l "Thread" = None -> line_after l = l)
  /\ (forall l, digit_free l = true -> line_after l = l)
  /\ (forall pre ds rest : string,
        strstr (pre ++ ds ++ rest) "Thread" <> None ->
        digit_free pre = true ->
        ds <> "" ->
        digits_only ds = true ->
        no_digit_ahead rest = true ->
        line_after (pre ++ ds ++ rest) = pre ++ ds).
Proof.
  rewrite released_cases. repeat split.
  - intros H. destruct (state (app (check_pids w))); try reflexivity.
    contradiction.
  - intros H. rewrite H. reflexivity.
  - apply line_after_truncates.
  - intros l H. unfold line_after. rewrite H. reflexivity.
  - intros l H. unfold line_after. rewrite (scan_line_no_digit l H).
    destruct (strstr l "Thread"); reflexivity.
  - intros pre ds rest Ht Hp Hne Hd Hr. unfold line_after.
    destruct (strstr (pre ++ ds ++ rest) "Thread"); [|contradiction].
    rewrite (scan_line_first_run pre ds rest Hp Hne Hd Hr). reflexivity.
Qed.

(** [turn_lines_released] on an attach response and on a thread listing. *)
Lemma turn_lines_released_witness :
  let w1 := mkWorld (mkApp [222] [] 77 0 STATE_CHECK_THREADS) [] [] [] [] false in
  let w2 := mkWorld (mkApp [222] [] 77 0 STATE_BACKTRACE) [] [] [] [] false in
  released ["Attaching to process 222"] w1 = ["Attaching to process 222"]
  /\ released ["* 1 Thread 0x7e (LWP 4)"; "done"] w2 =
       map line_after ["* 1 Thread 0x7e (LWP 4)"; "done"]
  /\ line_after "* 1 Thread 0x7e (LWP 4)" = "* 1"
  /\ line_after "done" = "done".
Proof.
  intros w1 w2.
  pose proof (turn_lines_released w1 ["Attaching to process 222"]) as (H1 & _).
  pose proof (turn_lines_released w2 ["* 1 Thread 0x7e (LWP 4)"; "done"])
    as (_ & H2 & _ & H4 & _ & H6).
  split; [apply H1; discriminate|].
  split; [apply H2; reflexivity|].
  split.
  - apply (H6 "* " "1" " Thread 0x7e (LWP 4)");
      [discriminate | reflexivity | discriminate | reflexivity | reflexivity].
  - apply H4. reflexivity.
Defined.

(** C9 (as stated) fails: the thread-listing line handed to the
    [STATE_BACKTRACE] handler is not the line it releases. *)
Lemma thread_listing_line_cut :
  let w := mkWorld (mkApp [222] [] 77 0 STATE_BACKTRACE) [] [] [] [] false in
  released ["* 1 Thread 0x7e (LWP 4)"] w = ["* 1"]
  /\ released ["* 1 Thread 0x7e (LWP 4)"] w <> ["* 1 Thread 0x7e (LWP 4)"].
Proof.
  split; [reflexivity|]. vm_compute. discriminate.
Qed.

(** ** The pid queue *)

(** Every turn is one transition. *)
Lemma turn_transition (lines : list string) (w : World) :
  exists cmds : list string,
    gdb_stdin (turn lines w) = (gdb_stdin w ++ cmds)%list
    /\ transition (pids (app w)) (state (app w)) cmds
         (pids (app (turn lines w))) (state (app (turn lines w))).
Proof.
  destruct (pids (app w)) as [|p ps] eqn:Ep.
  - rewrite (turn_without_pid lines w Ep).
    eexists. split; [reflexivity|]. cbn. rewrite Ep. constructor.
  - destruct (turn_with_pid lines w p ps Ep) as [Ht _]. rewrite Ht.
    unfold handle_turn.
    destruct (print_lines_frame lines w) as (Fa & Fi & _).
    destruct w as [[ps0 ts g r st] i o e sg q]. simpl in Ep. subst ps0.
    cbn [state app]. destruct st.
    + eexists. split; [reflexivity|]. constructor.
    + eexists. split; [reflexivity|]. constructor.
    + destruct (attach_ok lines) as [[|] buf];
        (eexists; split; [reflexivity|]; constructor).
    + destruct lines as [|l iter].
      * eexists. split; [reflexivity|]. constructor.
      * destruct (get_thread_ids (l :: iter)) as [[|t ts'] ls].
        -- exists []. split; [cbn; rewrite app_nil_r; reflexivity|]. constructor.
        -- exists [thread_command t]. split; [reflexivity|]. constructor.
    + destruct (print_lines lines _) as [a1 i1 o1 e1 s1 q1].
      simpl in Fa, Fi. subst a1 i1. cbn [threads app].
      destruct ts as [|t ts].
      * eexists. split; [reflexivity|]. constructor.
      * exists [thread_command t]. split; [reflexivity|]. constructor.
    + eexists. split; [reflexivity|]. constructor.
    + eexists. split; [reflexivity|]. constructor.
Qed.

(** What a transition does to the queue and to the [attach] commands:
    it sends the [attach] of the front pid, or drops the front pid it had
    attached to, or leaves the queue alone. *)
Lemma transition_cases (ps : list Z) (st : State) (cmds : list string)
    (ps' : list Z) (st' : State) :
  transition ps st cmds ps' st' ->
  (exists p, ps = p :: tl ps /\ st = STATE_ATTACH /\ ps' = ps
             /\ st' = STATE_CHECK_THREADS
             /\ filter is_attach_command cmds = [attach_command p])
  \/ (exists p, ps = p :: ps' /\ attached_state st = true
                /\ st' = STATE_ATTACH
                /\ filter is_attach_command cmds = [])
  \/ (ps' = ps /\ attached_state st' = attached_state st /\ ps <> []
      /\ st <> STATE_ATTACH /\ filter is_attach_command cmds = [])
  \/ (ps = [] /\ ps' = [] /\ st' = STATE_DONE
      /\ filter is_attach_command cmds = []).
Proof.
  intros H. destruct H.
  - do 3 right. repeat split.
  - do 2 right. left. repeat split; try discriminate; reflexivity.
  - left. exists p. repeat split; reflexivity.
  - do 2 right. left. repeat split; try discriminate; reflexivity.
  - right. left. exists p. repeat split; reflexivity.
  - do 2 right. left. repeat split; try discriminate; reflexivity.
  - do 2 right. left. repeat split; try discriminate; reflexivity.
  - do 2 right. left. repeat split; try discriminate; reflexivity.
  - do 2 right. left. repeat split; try discriminate; reflexivity.
  - right. left. exists p. repeat split; reflexivity.
  - right. left. exists p. repeat split; reflexivity.
  - do 2 right. left. repeat split; try discriminate; reflexivity.
Qed.

(** The queue only ever loses its front element. *)
Lemma turn_pids (lines : list string) (w : World) :
  pids (app (turn lines w)) = pids (app w)
  \/ (exists p, pids (app w) = p :: pids (app (turn lines w))
                /\ state (app (turn lines w)) = STATE_ATTACH).
Proof.
  destruct (turn_transition lines w) as (cmds & _ & Ht).
  destruct (transition_cases _ _ _ _ _ Ht)
    as [(p & _ & _ & E & _) | [(p & E & _ & E' & _) | [(E & _) | (E & E' & _)]]].
  - left. exact E.
  - right. exists p. split; assumption.
  - left. exact E.
  - left. congruence.
Qed.

Lemma visited_in_order_turn (pids0 : list Z) (lines : list string) (w : World) :
  visited_in_order pids0 w -> visited_in_order pids0 (turn lines w).
Proof.
  intros (visited & remaining & H0 & Hc & Hq).
  destruct (turn_transition lines w) as (cmds & Hs & Ht).
  unfold visited_in_order, attach_commands. rewrite Hs, filter_app.
  fold (attach_commands w). rewrite Hc.
  destruct (transition_cases _ _ _ _ _ Ht)
    as [(p & Ep & Est & Eps & Est' & Ef)
       | [(p & Ep & Eat & Est' & Ef)
         | [(Eps & Eat & Hne & Hna & Ef) | (Ep & Eps & Est' & Ef)]]];
    rewrite Ef.
  - (* attach sent for the front pid *)
    destruct Hq as [(_ & Hr) | (Hat & _)]; [|rewrite Est in Hat; discriminate].
    destruct remaining as [|p' remaining']; [congruence|].
    assert (p' = p) by congruence. subst p'.
    exists (visited ++ [p])%list, remaining'. repeat split.
    + rewrite <- app_assoc. exact H0.
    + rewrite map_app. reflexivity.
    + right. rewrite Est'. split; [reflexivity|].
      exists visited, p. split; [reflexivity|]. congruence.
  - (* the front pid is dropped *)
    destruct Hq as [(Hat & _) | (_ & before & p' & Ev & Er)]; [congruence|].
    exists visited, remaining. rewrite app_nil_r. repeat split; auto.
    left. rewrite Est'. split; [reflexivity|]. congruence.
  - exists visited, remaining. rewrite app_nil_r. repeat split; auto.
    rewrite Eat, Eps. exact Hq.
  - exists visited, remaining. rewrite app_nil_r. repeat split; auto.
    left. rewrite Est', Eps. split; [reflexivity|].
    destruct Hq as [(_ & Hr) | (_ & before & p' & _ & Er)]; congruence.
Qed.

Lemma visited_in_order_run (pids0 : list Z) (turns : list (list string)) :
  forall w, visited_in_order pids0 w -> visited_in_order pids0 (run turns w).
Proof.
  induction turns as [|lines turns IH]; intros w H; [exact H|].
  cbn [run]. apply IH, visited_in_order_turn, H.
Qed.

Lemma visited_in_order_start (gdb : Z) (pids0 : list Z) :
  visited_in_order pids0 (session_start gdb pids0).
Proof.
  exists [], pids0. repeat split. left. split; reflexivity.
Qed.

(** The failed attach of [STATE_CHECK_THREADS]. *)
Lemma turn_check_threads_failed
    (lines : list string) (w : World) (p : Z) (rest : list Z) :
  state (app w) = STATE_CHECK_THREADS ->
  pids (app w) = p :: rest ->
  fst (attach_ok lines) = false ->
  pids (app (turn lines w)) = rest
  /\ state (app (turn lines w)) = STATE_ATTACH
  /\ gdb_stdin (turn lines w) = (gdb_stdin w ++ [("p 0" ++ nl)%string])%list.
Proof.
  intros Hst Hp Hf.
  destruct (turn_with_pid lines w p rest Hp) as [Ht _]. rewrite Ht.
  unfold handle_turn. rewrite Hst.
  destruct (attach_ok lines) as [[|] buf]; [discriminate|].
  cbn. rewrite Hp. repeat split.
Qed.

(** The [STATE_DETACH] step, also taken from [STATE_PRINT_BACKTRACE] when
    no identifier is queued. *)
Lemma turn_detach (lines : list string) (w : World) (p : Z) (rest : list Z) :
  pids (app w) = p :: rest ->
  state (app w) = STATE_DETACH
  \/ (state (app w) = STATE_PRINT_BACKTRACE /\ threads (app w) = []) ->
  pids (app (turn lines w)) = rest
  /\ state (app (turn lines w)) = STATE_ATTACH
  /\ gdb_stdin (turn lines w) = (gdb_stdin w ++ [("detach" ++ nl)%string])%list.
Proof.
  intros Hp Hst.
  destruct (turn_with_pid lines w p rest Hp) as [Ht _]. rewrite Ht.
  unfold handle_turn.
  destruct (print_lines_frame lines w) as (Fa & Fi & _).
  destruct Hst as [Hst | [Hst Hth]]; rewrite Hst.
  - cbn. rewrite Hp. repeat split.
  - rewrite Fa, Hth. cbn. rewrite Fa, Fi, Hp. repeat split.
Qed.

(** Accepted arguments come out as their pids, in the order of the
    command line. *)
Lemma get_pid_list_loop_valid (args : list string) :
  forall acc : list Z,
    forallb valid_pid_arg args = true ->
    get_pid_list_loop args 0 acc = ((rev acc ++ map pid_of_arg args)%list, []).
Proof.
  induction args as [|a args IH]; intros acc H.
  - simpl. rewrite app_nil_r. reflexivity.
  - cbn [forallb] in H. apply andb_true_iff in H. destruct H as [Ha H].
    cbn [get_pid_list_loop map]. unfold valid_pid_arg, pid_of_arg in *.
    destruct (strtoul a 0) as [[v endptr] e]. cbn [fst].
    apply negb_true_iff in Ha. rewrite Ha.
    apply orb_false_iff in Ha. destruct Ha as [_ He].
    apply negb_false_iff, Z.eqb_eq in He. subst e.
    rewrite (IH _ H). cbn [rev]. rewrite <- app_assoc. reflexivity.
Qed.

(** C1: for a non-empty command line of accepted pids, [get_pid_list]
    yields them in the order of the command line, and over any sequence of
    turns the [attach] commands of the session are those of a prefix of
    that list, one per pid and in its order, the queue being what remains.
    A turn leaves the queue alone or removes its front element; it removes
    it on the failed attach of [STATE_CHECK_THREADS] and on the
    [STATE_DETACH] step (also reached from [STATE_PRINT_BACKTRACE] with no
    identifier queued), after which the next turn attaches to the next pid,
    or quits when none is left. *)
Theorem pid_queue_in_order
    (gdb : Z) (argv0 : string) (args : list string)
    (turns : list (list string)) :
  args <> [] ->
  forallb valid_pid_arg args = true ->
  get_pid_list (argv0 :: args) 0 = (map pid_of_arg args, [])
  /\ visited_in_order (map pid_of_arg args)
       (run turns (session_start gdb (map pid_of_arg args)))
  /\ (forall (w : World) (lines : list string),
        pids (app (turn lines w)) = pids (app w)
        \/ (exists p, pids (app w) = p :: pids (app (turn lines w))
                      /\ state (app (turn lines w)) = STATE_ATTACH))
  /\ (forall (w : World) (lines : list string) (p : Z) (rest : list Z),
        pids (app w) = p :: rest ->
        (state (app w) = STATE_CHECK_THREADS /\ fst (attach_ok lines) = false)
        \/ state (app w) = STATE_DETACH
        \/ (state (app w) = STATE_PRINT_BACKTRACE /\ threads (app w) = []) ->
        pids (app (turn lines w)) = rest
        /\ state (app (turn lines w)) = STATE_ATTACH
        /\ forall lines',
             gdb_stdin (turn lines' (turn lines w)) =
               (gdb_stdin (turn lines w) ++ [next_target_command rest])%list).
Proof.
  intros Hne Hv. split; [|split; [|split]].
  - unfold get_pid_list. destruct args as [|a args]; [contradiction|].
    cbn [List.length tl]. 
    destruct (Z.of_nat (S (S (List.length args))) <? 2) eqn:E;
      [apply Z.ltb_lt in E; lia|].
    apply (get_pid_list_loop_valid (a :: args) [] Hv).
  - apply visited_in_order_run, visited_in_order_start.
  - intros w lines. apply turn_pids.
  - intros w lines p rest Hp Hst.
    assert (H : pids (app (turn lines w)) = rest
                /\ state (app (turn lines w)) = STATE_ATTACH).
    { destruct Hst as [[Hst Hf] | Hst].
      - destruct (turn_check_threads_failed lines w p rest Hst Hp Hf)
          as (A & B & _). split; assumption.
      - destruct (turn_detach lines w p rest Hp Hst) as (A & B & _).
        split; assumption. }
    destruct H as [A B]. repeat split; auto.
    intros lines'.
    destruct (turn_in_attach lines' (turn lines w) B) as (Hs & _).
    rewrite Hs, A. reflexivity.
Qed.

(** [pid_queue_in_order] on the command line [pstack 111 222], the attach
    to 111 failing. *)
Lemma pid_queue_in_order_witness :
  let turns := [ []; []; ["ptrace: Operation not permitted."]; [];
                 ["Attaching to process 222"] ] in
  get_pid_list ["pstack"; "111"; "222"] 0 = ([111; 222], [])
  /\ visited_in_order [111; 222] (run turns (session_start 77 [111; 222]))
  /\ attach_commands (run turns (session_start 77 [111; 222])) =
       [attach_command 111; attach_command 222].
Proof.
  intros turns.
  pose proof (pid_queue_in_order 77 "pstack" ["111"; "222"] turns
                ltac:(discriminate) eq_refl) as (H1 & H2 & _).
  split; [exact H1|]. split; [exact H2|]. reflexivity.
Defined.

(** ** Output framer *)

Lemma c_str_nul_free (s : string) : nul_free s -> c_str s = s.
Proof.
  induction s as [|c s IH]; [reflexivity|].
  intros [Hc Hs]. simpl.
  destruct (Ascii.eqb c NUL) eqn:E; [apply Ascii.eqb_eq in E; contradiction|].
  rewrite (IH Hs). reflexivity.
Qed.

Lemma concat_chunks_app (xs ys : list string) :
  concat_chunks (xs ++ ys) = concat_chunks xs ++ concat_chunks ys.
Proof.
  induction xs as [|x xs IH]; [reflexivity|].
  simpl. rewrite IH, append_assoc. reflexivity.
Qed.

(** A normal read of a chunk after which the buffer does not end with the
    prompt: the loop goes on with the longer buffer. *)
Lemma read_lines_loop_normal
    (chunk : string) (ch : Channel) (buf : string) (w : World) :
  chunk_ok chunk ->
  g_str_has_suffix (buf ++ chunk) PROMPT = false ->
  read_lines_loop (normal_read chunk :: ch) buf w =
    read_lines_loop ch (buf ++ chunk) w.
Proof.
  intros [Hn Hl] Hs. unfold normal_read. cbn [read_lines_loop rc_bytes].
  destruct (BUF_SIZE <=? String.length chunk)%nat eqn:E;
    [apply Nat.leb_le in E; lia|].
  unfold read_lines_body. cbn [rc_bytes rc_status].
  rewrite (c_str_nul_free chunk Hn), Hs. reflexivity.
Qed.

Lemma read_lines_loop_chunks (chunks : list string) :
  forall (ch : Channel) (buf : string) (w : World),
    Forall chunk_ok chunks ->
    no_prompt_after buf chunks = true ->
    read_lines_loop (map normal_read chunks ++ ch)%list buf w =
      read_lines_loop ch (buf ++ concat_chunks chunks) w.
Proof.
  induction chunks as [|c cs IH]; intros ch buf w Hok Hnp.
  - simpl. rewrite append_nil_r. reflexivity.
  - inversion Hok as [|? ? Hc Hcs]; subst.
    cbn [no_prompt_after] in Hnp. apply andb_true_iff in Hnp.
    destruct Hnp as [H1 H2]. apply negb_true_iff in H1.
    cbn [map List.app].
    rewrite (read_lines_loop_normal c _ buf w Hc H1), (IH _ _ _ Hcs H2).
    cbn [concat_chunks fold_right]. rewrite append_assoc. reflexivity.
Qed.

(** The read after which the buffer ends with the prompt completes the
    turn, whatever its status. *)
Lemma read_lines_loop_prompt
    (r : ReadChars) (ch : Channel) (buf : string) (w : World) :
  chunk_ok (rc_bytes r) ->
  rc_status r <> G_IO_STATUS_ERROR ->
  g_str_has_suffix (buf ++ rc_bytes r) PROMPT = true ->
  read_lines_loop (r :: ch) buf w =
    Some (Some (turn_of_content (buf ++ rc_bytes r)), ch, w).
Proof.
  intros [Hn Hl] Hst Hs. cbn [read_lines_loop].
  destruct (BUF_SIZE <=? String.length (rc_bytes r))%nat eqn:E;
    [apply Nat.leb_le in E; lia|].
  unfold read_lines_body.
  rewrite (c_str_nul_free _ Hn), Hs.
  destruct (rc_status r); try reflexivity. contradiction.
Qed.

(** A read without any byte, the buffer not ending with the prompt: the
    call is over without a turn; only the error status is reported. *)
Lemma read_lines_loop_no_byte
    (r : ReadChars) (ch : Channel) (buf : string) (w : World) :
  rc_bytes r = "" ->
  rc_status r <> G_IO_STATUS_NORMAL ->
  g_str_has_suffix buf PROMPT = false ->
  read_lines_loop (r :: ch) buf w =
    Some (None, ch,
          match rc_status r with
          | G_IO_STATUS_ERROR => g_printerr (read_error_report r) w
          | _ => w
          end).
Proof.
  intros Hb Hst Hs. cbn [read_lines_loop]. rewrite Hb.
  cbn [String.length BUF_SIZE Nat.leb].
  unfold read_lines_body. rewrite Hb. cbn [c_str].
  rewrite append_nil_r, Hs. unfold read_error_report.
  destruct (rc_status r); try reflexivity.
  - destruct (rc_error r); reflexivity.
  - contradiction.
Qed.

Lemma no_prompt_after_all (chunks : list string) :
  forall buf : string,
    g_str_has_suffix buf PROMPT = false ->
    no_prompt_after buf chunks = true ->
    g_str_has_suffix (buf ++ concat_chunks chunks) PROMPT = false.
Proof.
  induction chunks as [|c cs IH]; intros buf Hb Hnp.
  - simpl. rewrite append_nil_r. exact Hb.
  - cbn [no_prompt_after] in Hnp. apply andb_true_iff in Hnp.
    destruct Hnp as [H1 H2]. apply negb_true_iff in H1.
    cbn [concat_chunks fold_right]. rewrite <- append_assoc.
    apply IH; assumption.
Qed.

Lemma read_lines_turn
    (chunks : list string) (last : string) (ch : Channel) (w : World) :
  Forall chunk_ok (chunks ++ [last]) ->
  no_prompt_after "" chunks = true ->
  g_str_has_suffix (concat_chunks (chunks ++ [last])) PROMPT = true ->
  read_lines (map normal_read (chunks ++ [last]) ++ ch)%list w =
    Some (Some (turn_of_content (concat_chunks (chunks ++ [last]))), ch, w).
Proof.
  intros Hok Hnp Hs. apply Forall_app in Hok. destruct Hok as [Hcs Hl].
  inversion Hl as [|? ? Hlast _]; subst.
  unfold read_lines. rewrite map_app, <- app_assoc.
  rewrite (read_lines_loop_chunks chunks _ "" w Hcs Hnp).
  cbn [map List.app append].
  rewrite concat_chunks_app in Hs |- *.
  cbn [concat_chunks fold_right] in Hs |- *. rewrite append_nil_r in Hs |- *.
  apply (read_lines_loop_prompt (normal_read last) ch _ w Hlast);
    [discriminate | exact Hs].
Qed.

(** C6 (as amended): when the chunks of a content that ends with the
    prompt arrive by successive normal reads within one call of
    [read_lines] (each chunk shorter than the read buffer and without NUL
    byte), and the buffer ends with the prompt after the last chunk and
    after no earlier one, the call returns the content split at line
    feeds, the last piece dropped; two such deliveries of the same
    content, one byte at a time or otherwise, return the same lines. *)
Theorem read_lines_chunk_independent
    (chunks1 : list string) (last1 : string)
    (chunks2 : list string) (last2 : string) (ch : Channel) (w : World) :
  Forall chunk_ok (chunks1 ++ [last1]) ->
  Forall chunk_ok (chunks2 ++ [last2]) ->
  no_prompt_after "" chunks1 = true ->
  no_prompt_after "" chunks2 = true ->
  concat_chunks (chunks1 ++ [last1]) = concat_chunks (chunks2 ++ [last2]) ->
  (exists output, concat_chunks (chunks1 ++ [last1]) = output ++ PROMPT) ->
  read_lines (map normal_read (chunks1 ++ [last1]) ++ ch)%list w =
    Some (Some (turn_of_content (concat_chunks (chunks1 ++ [last1]))), ch, w)
  /\ read_lines (map normal_read (chunks2 ++ [last2]) ++ ch)%list w =
       read_lines (map normal_read (chunks1 ++ [last1]) ++ ch)%list w.
Proof.
  intros Hok1 Hok2 Hnp1 Hnp2 Hc Hs. apply g_str_has_suffix_iff in Hs.
  rewrite (read_lines_turn chunks1 last1 ch w Hok1 Hnp1 Hs).
  split; [reflexivity|].
  rewrite Hc in Hs |- *. apply read_lines_turn; assumption.
Qed.

(** [read_lines_chunk_independent] on two lines and the prompt, delivered
    in two pieces and in nine. *)
Lemma read_lines_chunk_independent_witness :
  let c1 := [("a" ++ nl ++ "b")%string] in
  let l1 := (nl ++ "(gdb) ")%string in
  let c2 := [("a" ++ nl)%string; "b"; nl; "("; "g"; "d"; "b"; ")"] in
  let l2 := " " in
  let w := session_start 77 [111] in
  read_lines (map normal_read (c1 ++ [l1])%list) w = Some (Some ["a"; "b"], [], w)
  /\ read_lines (map normal_read (c2 ++ [l2])%list) w =
       read_lines (map normal_read (c1 ++ [l1])%list) w.
Proof.
  intros c1 l1 c2 l2 w.
  assert (Hok1 : Forall chunk_ok (c1 ++ [l1])).
  { repeat constructor; try discriminate; apply Nat.ltb_lt; reflexivity. }
  assert (Hok2 : Forall chunk_ok (c2 ++ [l2])).
  { repeat constructor; try discriminate; apply Nat.ltb_lt; reflexivity. }
  pose proof (read_lines_chunk_independent c1 l1 c2 l2 [] w Hok1 Hok2
                eq_refl eq_refl eq_refl
                (ex_intro _ ("a" ++ nl ++ "b" ++ nl)%string eq_refl))
    as [H1 H2].
  rewrite !app_nil_r in H1, H2.
  split; [exact H1 | exact H2].
Defined.

(** C6 (as stated) fails.  A content in which the prompt also occurs
    earlier gives other lines when a chunk happens to end there; and when
    a read finds nothing before the prompt has arrived, the call returns
    no turn and drops what it had read, so that a later call frames the
    rest alone. *)
Lemma read_lines_depends_on_chunks :
  let w := session_start 77 [111] in
  (read_lines [normal_read ("(gdb) a" ++ nl ++ "(gdb) ")] w =
     Some (Some ["(gdb) a"], [], w)
   /\ read_lines [normal_read "(gdb) "; normal_read ("a" ++ nl ++ "(gdb) ")] w =
        Some (Some [], [normal_read ("a" ++ nl ++ "(gdb) ")], w))
  /\ (read_lines [normal_read ("a" ++ nl ++ "(gdb) ")] w =
        Some (Some ["a"], [], w)
      /\ read_lines [normal_read ("a" ++ nl); nothing_to_read;
                     normal_read "(gdb) "] w =
           Some (None, [normal_read "(gdb) "], w)
      /\ read_lines [normal_read "(gdb) "] w = Some (Some [], [], w)).
Proof.
  repeat split; reflexivity.
Qed.

(** Why the chunks are asked to be free of NUL and shorter than the read
    buffer: what follows a NUL byte in a chunk never reaches the buffer,
    and a read that fills the [BUF_SIZE] bytes of the array has its
    terminator stored past it. *)
Lemma read_lines_limits :
  let w := session_start 77 [111] in
  read_lines [normal_read (String NUL "b"); normal_read PROMPT] w =
    Some (Some [], [], w)
  /\ read_lines [normal_read (pad BUF_SIZE)] w = None.
Proof.
  split; reflexivity.
Qed.

(** C8 (as amended): a read that yields no byte while the buffer does not
    end with the prompt ends the call of [read_lines] without a turn, in
    the same way for the status of a stream that has nothing to read yet
    (AGAIN) and for that of a closed stream (EOF): nothing is reported,
    [process_gdb_output] sends no command and returns FALSE.  Only the
    error status is reported, as [gdb read error], with the same
    return. *)
Theorem zero_byte_read_ends_call
    (condition : Z) (chunks : list string) (r : ReadChars) (ch : Channel)
    (w : World) :
  Z.land condition G_IO_ERR = 0 ->
  Z.land condition G_IO_HUP = 0 ->
  Forall chunk_ok chunks ->
  no_prompt_after "" chunks = true ->
  rc_bytes r = "" ->
  rc_status r <> G_IO_STATUS_NORMAL ->
  process_gdb_output condition (map normal_read chunks ++ r :: ch)%list w =
    Some (false, ch,
          match rc_status r with
          | G_IO_STATUS_ERROR => g_printerr (read_error_report r) (check_pids w)
          | _ => check_pids w
          end, None)
  /\ gdb_stdin (check_pids w) = gdb_stdin w
  /\ stderr (check_pids w) = stderr w
  /\ pids (app (check_pids w)) = pids (app w).
Proof.
  intros He Hh Hok Hnp Hb Hst. split.
  - unfold process_gdb_output. rewrite He, Hh. cbn [Z.eqb negb orb].
    unfold read_lines.
    rewrite (read_lines_loop_chunks chunks _ "" (check_pids w) Hok Hnp).
    rewrite (read_lines_loop_no_byte r ch _ (check_pids w) Hb Hst);
      [reflexivity|].
    apply (no_prompt_after_all chunks ""); [reflexivity | exact Hnp].
  - destruct w as [[ps ts g n st] i o e sg q].
    destruct ps; repeat split; reflexivity.
Qed.

(** [zero_byte_read_ends_call] after a partial line, for the three
    statuses. *)
Lemma zero_byte_read_ends_call_witness :
  let w := mkWorld (mkApp [111] [] 77 0 STATE_CHECK_THREADS) [] [] [] [] false in
  process_gdb_output G_IO_IN
    [normal_read "Attaching"; mkRead G_IO_STATUS_AGAIN "" None] w =
    Some (false, [], w, None)
  /\ process_gdb_output G_IO_IN
       [normal_read "Attaching"; mkRead G_IO_STATUS_EOF "" None] w =
       Some (false, [], w, None)
  /\ process_gdb_output G_IO_IN
       [normal_read "Attaching"; mkRead G_IO_STATUS_ERROR "" (Some "EIO")] w =
       Some (false, [], g_printerr "gdb read error: EIO" w, None).
Proof.
  intros w.
  assert (Hok : Forall chunk_ok ["Attaching"]).
  { repeat constructor; try discriminate; apply Nat.ltb_lt; reflexivity. }
  split; [|split].
  - exact (proj1 (zero_byte_read_ends_call G_IO_IN ["Attaching"]
                    (mkRead G_IO_STATUS_AGAIN "" None) [] w
                    eq_refl eq_refl Hok eq_refl eq_refl ltac:(discriminate))).
  - exact (proj1 (zero_byte_read_ends_call G_IO_IN ["Attaching"]
                    (mkRead G_IO_STATUS_EOF "" None) [] w
                    eq_refl eq_refl Hok eq_refl eq_refl ltac:(discriminate))).
  - exact (proj1 (zero_byte_read_ends_call G_IO_IN ["Attaching"]
                    (mkRead G_IO_STATUS_ERROR "" (Some "EIO")) [] w
                    eq_refl eq_refl Hok eq_refl eq_refl ltac:(discriminate))).
Defined.

(** C8 (as stated) fails: at the end of the stream, as when nothing is
    there to read yet, the callback returns FALSE without any report on
    the error stream; the two cases are not told apart, and neither waits
    for another readiness event. *)
Lemma end_of_file_not_reported :
  let w := mkWorld (mkApp [111] [] 77 0 STATE_CHECK_THREADS) [] [] [] [] false in
  process_gdb_output G_IO_IN [mkRead G_IO_STATUS_EOF "" None] w =
    Some (false, [], w, None)
  /\ process_gdb_output G_IO_IN [mkRead G_IO_STATUS_AGAIN "" None] w =
       Some (false, [], w, None)
  /\ stderr w = [].
Proof.
  repeat split; reflexivity.
Qed.

(** * Further properties of the code *)

(** ** [get_pid_list] *)

(** [strtoul] leaves [errno] alone or sets it to [ERANGE]. *)
Lemma strtoul_errno (nptr : string) (errno : Z) :
  snd (strtoul nptr errno) = errno \/ snd (strtoul nptr errno) = ERANGE.
Proof.
  unfold strtoul.
  match goal with
  | |- context [let '(_, _) := ?m in _] => destruct m as [neg body]
  end.
  destruct body as [|c body]; [left; reflexivity|].
  destruct (g_ascii_isdigit c); [|left; reflexivity].
  destruct (digits_value 0 (String c body)) as [v endp].
  destruct (v >? ULONG_MAX); [right | left]; reflexivity.
Qed.

Lemma gint_wrap_range (z : Z) : - 2 ^ 31 <= gint_wrap z < 2 ^ 31.
Proof.
  unfold gint_wrap.
  pose proof (Z.mod_pos_bound (z + 2 ^ 31) (2 ^ 32) ltac:(lia)). lia.
Qed.

(** The loop either stops at an argument it reports, or takes every
    argument in, each as a pid in range. *)
Lemma get_pid_list_loop_cases (args : list string) :
  forall (errno : Z) (acc : list Z),
    Forall pid_in_range acc ->
    (exists arg, In arg args
                 /\ get_pid_list_loop args errno acc =
                      ([], [invalid_pid_report arg]))
    \/ (exists ps, get_pid_list_loop args errno acc = ((rev acc ++ ps)%list, [])
                   /\ List.length ps = List.length args
                   /\ Forall pid_in_range ps).
Proof.
  induction args as [|a args IH]; intros errno acc Hacc.
  - right. exists []. simpl. rewrite app_nil_r. auto.
  - cbn [get_pid_list_loop].
    destruct (strtoul a errno) as [[v endptr] e].
    destruct (negb (endptr =? "")%string || (gint_wrap v <=? 0)
              || (gint_wrap v >? G_MAXINT) || negb (e =? 0)) eqn:E.
    + left. exists a. split; [now left | reflexivity].
    + apply orb_false_iff in E. destruct E as [E _].
      apply orb_false_iff in E. destruct E as [E E3].
      apply orb_false_iff in E. destruct E as [_ E2].
      assert (Hp : pid_in_range (gint_wrap v)).
      { unfold pid_in_range. apply Z.leb_gt in E2.
        destruct (gint_wrap v >? G_MAXINT) eqn:E3'; [discriminate|].
        rewrite Z.gtb_ltb in E3'. apply Z.ltb_ge in E3'. lia. }
      destruct (IH e (gint_wrap v :: acc)) as [(arg & Hin & Hr) | (ps & Hr & Hl & Hf)].
      * constructor; assumption.
      * left. exists arg. split; [now right | exact Hr].
      * right. exists (gint_wrap v :: ps). rewrite Hr. cbn [rev].
        rewrite <- app_assoc. repeat split.
        -- simpl. congruence.
        -- constructor; assumption.
Qed.

(** X1: [get_pid_list] is all or nothing.  Either it returns no pid and
    has printed exactly one message, or it has printed nothing and returns
    one pid for each argument after the program name, at least one, each
    greater than 0 and at most [G_MAXINT]. *)
Theorem get_pid_list_all_or_nothing (argv : list string) (errno : Z) :
  (fst (get_pid_list argv errno) = []
   /\ List.length (snd (get_pid_list argv errno)) = 1%nat)
  \/ (snd (get_pid_list argv errno) = []
      /\ fst (get_pid_list argv errno) <> []
      /\ List.length (fst (get_pid_list argv errno)) =
           (List.length argv - 1)%nat
      /\ Forall pid_in_range (fst (get_pid_list argv errno))).
Proof.
  unfold get_pid_list.
  destruct (Z.of_nat (List.length argv) <? 2) eqn:E.
  - left. split; reflexivity.
  - apply Z.ltb_ge in E.
    destruct argv as [|prg [|a args]]; try (simpl in E; lia).
    cbn [tl].
    destruct (get_pid_list_loop_cases (a :: args) errno [] (Forall_nil _))
      as [(arg & _ & Hr) | (ps & Hr & Hl & Hf)]; rewrite Hr.
    + left. split; reflexivity.
    + right. cbn [fst snd rev List.app].
      split; [reflexivity|]. split; [|split; [|exact Hf]].
      * destruct ps; [discriminate Hl | discriminate].
      * rewrite Hl. simpl. lia.
Qed.

(** Arguments accepted with [errno] at 0 leave it at 0. *)
Lemma get_pid_list_loop_accepted (pre : list string) :
  forall (rest : list string) (acc : list Z),
    forallb valid_pid_arg pre = true ->
    get_pid_list_loop (pre ++ rest) 0 acc =
      get_pid_list_loop rest 0 (rev (map pid_of_arg pre) ++ acc)%list.
Proof.
  induction pre as [|a pre IH]; intros rest acc H; [reflexivity|].
  cbn [forallb] in H. apply andb_true_iff in H. destruct H as [Ha H].
  cbn [List.app get_pid_list_loop map rev]. unfold valid_pid_arg, pid_of_arg in *.
  destruct (strtoul a 0) as [[v endptr] e]. cbn [fst].
  apply negb_true_iff in Ha. rewrite Ha.
  apply orb_false_iff in Ha. destruct Ha as [_ He].
  apply negb_false_iff, Z.eqb_eq in He. subst e.
  rewrite (IH rest _ H), <- app_assoc. reflexivity.
Qed.

(** X2: of several arguments the first one that is not accepted is the
    one reported, alone; no pid is returned, whatever follows it. *)
Theorem get_pid_list_first_invalid
    (argv0 : string) (pre : list string) (arg : string) (post : list string) :
  forallb valid_pid_arg pre = true ->
  valid_pid_arg arg = false ->
  get_pid_list (argv0 :: pre ++ arg :: post) 0 =
    ([], [invalid_pid_report arg]).
Proof.
  intros Hpre Harg. unfold get_pid_list.
  destruct (Z.of_nat (List.length (argv0 :: pre ++ arg :: post)) <? 2) eqn:E.
  { apply Z.ltb_lt in E. cbn [List.length] in E.
    rewrite length_app in E. simpl in E. lia. }
  cbn [tl]. rewrite (get_pid_list_loop_accepted pre _ [] Hpre).
  cbn [get_pid_list_loop]. unfold valid_pid_arg in Harg.
  destruct (strtoul arg 0) as [[v endptr] e].
  apply negb_false_iff in Harg. rewrite Harg. reflexivity.
Qed.

Lemma get_pid_list_first_invalid_witness :
  get_pid_list ["pstack"; "111"; "12x"; "oops"] 0 =
    ([], [invalid_pid_report "12x"]).
Proof.
  exact (get_pid_list_first_invalid "pstack" ["111"] "12x" ["oops"]
           eq_refl eq_refl).
Defined.

(** X3: [errno] is tested and never reset: when it is not 0 on entry the
    first argument is rejected, whatever it is. *)
Theorem get_pid_list_errno_sticky
    (argv0 arg : string) (args : list string) (errno : Z) :
  errno <> 0 ->
  get_pid_list (argv0 :: arg :: args) errno = ([], [invalid_pid_report arg]).
Proof.
  intros He. unfold get_pid_list.
  destruct (Z.of_nat (List.length (argv0 :: arg :: args)) <? 2) eqn:E.
  { apply Z.ltb_lt in E. cbn [List.length] in E. lia. }
  cbn [tl get_pid_list_loop].
  pose proof (strtoul_errno arg errno) as Hs.
  destruct (strtoul arg errno) as [[v endptr] e]. cbn [snd] in Hs.
  assert (He' : (e =? 0) = false).
  { apply Z.eqb_neq. destruct Hs as [Hs | Hs]; rewrite Hs;
      [exact He | discriminate]. }
  rewrite He'. cbn [negb]. rewrite !orb_true_r. reflexivity.
Qed.

Lemma get_pid_list_errno_sticky_witness :
  get_pid_list ["pstack"; "111"] 4 = ([], [invalid_pid_report "111"]).
Proof.
  exact (get_pid_list_errno_sticky "pstack" "111" [] 4 ltac:(discriminate)).
Defined.

(** The digits that [%d] prints are read back by [strtoul]. *)
Lemma digits_value_acc (d : Decimal.uint) :
  forall acc : positive,
    digits_value (Z.pos acc) (NilEmpty.string_of_uint d) =
      (Z.pos (Pos.of_uint_acc d acc), "").
Proof.
  induction d as [|d IH|d IH|d IH|d IH|d IH|d IH|d IH|d IH|d IH|d IH];
    intros acc; [reflexivity|..];
    cbn [NilEmpty.string_of_uint Pos.of_uint_acc digits_value];
    match goal with
    | |- context [g_ascii_isdigit ?c] =>
        change (g_ascii_isdigit c) with true;
        let v := eval vm_compute in (uchar c) in change (uchar c) with v
    end;
    cbv iota; rewrite <- IH; f_equal; lia.
Qed.

Lemma digits_value_of_uint (d : Decimal.uint) :
  digits_value 0 (NilEmpty.string_of_uint d) = (Z.of_N (Pos.of_uint d), "").
Proof.
  induction d as [|d IH|d IH|d IH|d IH|d IH|d IH|d IH|d IH|d IH|d IH];
    [reflexivity | exact IH |..];
    cbn [NilEmpty.string_of_uint Pos.of_uint digits_value];
    match goal with
    | |- context [g_ascii_isdigit ?c] =>
        change (g_ascii_isdigit c) with true;
        let v := eval vm_compute in (10 * 0 + (uchar c - 48)) in
        change (10 * 0 + (uchar c - 48)) with v
    end;
    cbv iota; apply digits_value_acc.
Qed.

Lemma string_of_gint_pos (p : positive) :
  string_of_gint (Z.pos p) = NilEmpty.string_of_uint (Pos.to_uint p).
Proof.
  unfold string_of_gint. cbn [Z.to_int NilZero.string_of_int].
  unfold NilZero.string_of_uint.
  pose proof (DecimalPos.Unsigned.to_uint_nonnil p) as H.
  destruct (Pos.to_uint p); [contradiction | reflexivity..].
Qed.

(** On a string that starts with a digit [strtoul] skips nothing and
    reads the digits. *)
Lemma strtoul_digits (c : ascii) (s : string) (errno : Z) :
  g_ascii_isdigit c = true ->
  strtoul (String c s) errno =
    let '(v, endp) := digits_value 0 (String c s) in
    if v >? ULONG_MAX then (ULONG_MAX, endp, ERANGE) else (v, endp, errno).
Proof.
  intros H. destruct c as [b0 b1 b2 b3 b4 b5 b6 b7].
  destruct b0, b1, b2, b3, b4, b5, b6, b7; try discriminate H; reflexivity.
Qed.

Lemma uint_string_head (d : Decimal.uint) :
  d <> Decimal.Nil ->
  exists c s, NilEmpty.string_of_uint d = String c s
              /\ g_ascii_isdigit c = true.
Proof.
  intros H. destruct d; [contradiction | ..];
    (eexists; eexists; split; [reflexivity | reflexivity]).
Qed.

(** What [strtoul] makes of the decimal numeral of a pid in range. *)
Lemma strtoul_string_of_gint (n errno : Z) :
  pid_in_range n ->
  strtoul (string_of_gint n) errno = (n, "", errno).
Proof.
  intros [Hlo Hhi]. destruct n as [|p|p]; try lia.
  rewrite string_of_gint_pos.
  destruct (uint_string_head (Pos.to_uint p)
              (DecimalPos.Unsigned.to_uint_nonnil p)) as (c & s & Es & Hc).
  pose proof (digits_value_of_uint (Pos.to_uint p)) as Hd.
  rewrite DecimalPos.Unsigned.of_to in Hd. rewrite Es in Hd |- *.
  rewrite (strtoul_digits c s errno Hc), Hd. cbn [Z.of_N].
  destruct (Z.pos p >? ULONG_MAX) eqn:E; [|reflexivity].
  rewrite Z.gtb_ltb in E. apply Z.ltb_lt in E.
  unfold G_MAXINT, ULONG_MAX in *. lia.
Qed.

Lemma decimal_pid_accepted (n : Z) :
  pid_in_range n ->
  valid_pid_arg (string_of_gint n) = true
  /\ pid_of_arg (string_of_gint n) = n.
Proof.
  intros H. unfold valid_pid_arg, pid_of_arg.
  rewrite (strtoul_string_of_gint n 0 H). cbn [fst].
  destruct H as [Hlo Hhi].
  rewrite gint_wrap_small by (unfold G_MAXINT in Hhi; lia).
  split; [|reflexivity].
  destruct (n <=? 0) eqn:E1; [apply Z.leb_le in E1; lia|].
  destruct (n >? G_MAXINT) eqn:E2;
    [rewrite Z.gtb_ltb in E2; apply Z.ltb_lt in E2; lia|].
  reflexivity.
Qed.

(** X4: pids written as plain decimal numerals, each greater than 0 and
    at most [G_MAXINT], are all accepted and come back as the same
    numbers in the same order, nothing being printed. *)
Theorem get_pid_list_decimal (argv0 : string) (ns : list Z) :
  ns <> [] ->
  Forall pid_in_range ns ->
  get_pid_list (argv0 :: map string_of_gint ns) 0 = (ns, []).
Proof.
  intros Hne Hr. unfold get_pid_list.
  destruct ns as [|n ns]; [contradiction|].
  cbn [map List.length tl].
  destruct (Z.of_nat (S (S (List.length (map string_of_gint ns)))) <? 2) eqn:E;
    [apply Z.ltb_lt in E; lia|].
  change (string_of_gint n :: map string_of_gint ns)
    with (map string_of_gint (n :: ns)).
  rewrite get_pid_list_loop_valid.
  - cbn [rev List.app]. f_equal. rewrite map_map.
    clear Hne E. induction Hr as [|m ms Hm Hms IH]; [reflexivity|].
    cbn [map]. rewrite IH, (proj2 (decimal_pid_accepted m Hm)). reflexivity.
  - clear Hne E. induction Hr as [|m ms Hm Hms IH]; [reflexivity|].
    cbn [map forallb]. rewrite IH, (proj1 (decimal_pid_accepted m Hm)).
    reflexivity.
Qed.

Lemma get_pid_list_decimal_witness :
  get_pid_list ("pstack" :: map string_of_gint [1; 4242; 2147483647]) 0 =
    ([1; 4242; 2147483647], []).
Proof.
  apply (get_pid_list_decimal "pstack" [1; 4242; 2147483647]);
    [discriminate|].
  repeat constructor; discriminate.
Defined.

(** ** [main] *)

Lemma strcmp_eq_iff (a : string) :
  forall b : string,
    nul_free a -> nul_free b -> (strcmp a b = 0 <-> a = b).
Proof.
  induction a as [|x a IH]; intros [|y b] Ha Hb.
  - split; reflexivity.
  - destruct Hb as [Hy _]. cbn [strcmp]. split; [|discriminate].
    intros H. apply uchar_inj in H. congruence.
  - destruct Ha as [Hx _]. cbn [strcmp]. split; [|discriminate].
    intros H. apply uchar_inj in H. congruence.
  - destruct Ha as [_ Ha]. destruct Hb as [_ Hb]. cbn [strcmp].
    destruct (Ascii.eqb x y) eqn:E.
    + apply Ascii.eqb_eq in E. subst y. rewrite (IH b Ha Hb).
      split; congruence.
    + apply Ascii.eqb_neq in E. split; [|congruence].
      intros H. apply uchar_inj in H. contradiction.
Qed.

(** An argument that does not begin with a dash is none of the options. *)
Lemma strcmp_no_dash (arg lit : string) :
  begins_with_dash arg = false ->
  begins_with_dash lit = true ->
  (strcmp arg lit =? 0) = false.
Proof.
  intros Ha Hl. apply Z.eqb_neq.
  destruct lit as [|y lit]; [discriminate|].
  simpl in Hl. apply Ascii.eqb_eq in Hl. subst y.
  destruct arg as [|x arg]; [discriminate|].
  simpl in Ha. cbn [strcmp]. rewrite Ha.
  intros H. apply uchar_inj in H. apply Ascii.eqb_neq in Ha. contradiction.
Qed.

Lemma main_options_skip (V prgname : string) (pre : list string) :
  forall (rest : list string) (w : World),
    Forall (fun a => begins_with_dash a = false) pre ->
    main_options V prgname (pre ++ rest) w = main_options V prgname rest w.
Proof.
  induction pre as [|a pre IH]; intros rest w Hf; [reflexivity|].
  inversion Hf as [|? ? Ha Hpre]; subst.
  cbn [List.app main_options].
  rewrite (strcmp_no_dash a "--version" Ha eq_refl),
    (strcmp_no_dash a "-V" Ha eq_refl),
    (strcmp_no_dash a "--help" Ha eq_refl), Ha.
  cbn [orb]. apply IH. exact Hpre.
Qed.

(** X5: the options are looked for before any pid is read, and the first
    argument that begins with a dash decides alone: [--version] or [-V]
    print the version and exit with 0, [--help] prints the usage and exits
    with 0, anything else (a negative number too) prints the usage and
    exits with 1.  Nothing is written on the error stream, whatever the
    other arguments are. *)
Theorem main_first_option
    (V argv0 : string) (pre : list string) (arg : string)
    (post : list string) (errno : Z) (spawn : string + Z) :
  Forall (fun a => begins_with_dash a = false) pre ->
  begins_with_dash arg = true ->
  nul_free arg ->
  (arg = "--version" \/ arg = "-V" ->
   main V (argv0 :: pre ++ arg :: post) errno spawn =
     Exited 0 (stdout (print_version V blank)) [])
  /\ (arg = "--help" ->
      main V (argv0 :: pre ++ arg :: post) errno spawn =
        Exited 0 (stdout (usage argv0 blank)) [])
  /\ (arg <> "--version" -> arg <> "-V" -> arg <> "--help" ->
      main V (argv0 :: pre ++ arg :: post) errno spawn =
        Exited 1 (stdout (usage argv0 blank)) []).
Proof.
  intros Hpre Hd Hn. unfold main. cbn [hd tl].
  rewrite (main_options_skip V argv0 pre (arg :: post) blank Hpre).
  cbn [main_options]. split; [|split].
  - intros [E | E]; subst arg; reflexivity.
  - intros E. subst arg. reflexivity.
  - intros H1 H2 H3.
    assert (E1 : (strcmp arg "--version" =? 0) = false).
    { apply Z.eqb_neq. intros E. apply H1.
      apply (strcmp_eq_iff arg "--version" Hn); [|exact E].
      simpl. repeat split; discriminate. }
    assert (E2 : (strcmp arg "-V" =? 0) = false).
    { apply Z.eqb_neq. intros E. apply H2.
      apply (strcmp_eq_iff arg "-V" Hn); [|exact E].
      simpl. repeat split; discriminate. }
    assert (E3 : (strcmp arg "--help" =? 0) = false).
    { apply Z.eqb_neq. intros E. apply H3.
      apply (strcmp_eq_iff arg "--help" Hn); [|exact E].
      simpl. repeat split; discriminate. }
    rewrite E1, E2, E3, Hd. reflexivity.
Qed.

Lemma main_first_option_witness :
  main "1.0" ["pstack"; "111"; "-V"; "junk"] 0 (inr 77) =
    Exited 0 (stdout (print_version "1.0" blank)) []
  /\ main "1.0" ["pstack"; "bad pid"; "--help"] 0 (inr 77) =
       Exited 0 (stdout (usage "pstack" blank)) []
  /\ main "1.0" ["pstack"; "111"; "-5"] 0 (inr 77) =
       Exited 1 (stdout (usage "pstack" blank)) [].
Proof.
  split; [|split].
  - apply (proj1 (main_first_option "1.0" "pstack" ["111"] "-V" ["junk"] 0
                    (inr 77) ltac:(repeat constructor) eq_refl
                    ltac:(simpl; repeat split; discriminate))).
    now right.
  - apply (proj1 (proj2 (main_first_option "1.0" "pstack" ["bad pid"] "--help"
                           [] 0 (inr 77) ltac:(repeat constructor) eq_refl
                           ltac:(simpl; repeat split; discriminate)))).
    reflexivity.
  - apply (proj2 (proj2 (main_first_option "1.0" "pstack" ["111"] "-5"
                           [] 0 (inr 77) ltac:(repeat constructor) eq_refl
                           ltac:(simpl; repeat split; discriminate))));
      discriminate.
Defined.

Lemma main_options_none (V prgname : string) (args : list string) (w : World) :
  Forall (fun a => begins_with_dash a = false) args ->
  main_options V prgname args w = None.
Proof.
  intros H. rewrite <- (app_nil_r args).
  rewrite main_options_skip; [reflexivity | exact H].
Qed.

Lemma string_of_gint_no_dash (n : Z) :
  0 < n -> begins_with_dash (string_of_gint n) = false.
Proof.
  intros H. destruct n as [|p|p]; try lia.
  rewrite string_of_gint_pos.
  pose proof (DecimalPos.Unsigned.to_uint_nonnil p) as Hn.
  destruct (Pos.to_uint p); [contradiction | reflexivity..].
Qed.

(** X6: started with pids written as plain decimal numerals in range,
    [main] prints nothing and, when gdb is spawned, runs the loop on the
    session that begins in [STATE_START] with these pids in the order of
    the command line; when the spawn fails it reports the cause and exits
    with 1. *)
Theorem main_starts_session
    (V argv0 : string) (ns : list Z) (gdb : Z) (message : string) :
  ns <> [] ->
  Forall pid_in_range ns ->
  main V (argv0 :: map string_of_gint ns) 0 (inr gdb) =
    Running (session_start gdb ns)
  /\ main V (argv0 :: map string_of_gint ns) 0 (inl message) =
       Exited 1 [] [("Unable to start gdb: " ++ message ++ nl)%string].
Proof.
  intros Hne Hr. unfold main. cbn [hd tl].
  rewrite main_options_none.
  - rewrite (get_pid_list_decimal argv0 ns Hne Hr).
    destruct ns as [|n ns]; [contradiction|]. split; reflexivity.
  - clear Hne. induction Hr as [|m ms Hm Hms IH]; constructor; [|exact IH].
    apply string_of_gint_no_dash. apply Hm.
Qed.

Lemma main_starts_session_witness :
  main "1.0" ("pstack" :: map string_of_gint [111; 222]) 0 (inr 77) =
    Running (session_start 77 [111; 222])
  /\ main "1.0" ("pstack" :: map string_of_gint [111; 222]) 0 (inl "no gdb") =
       Exited 1 [] [("Unable to start gdb: no gdb" ++ nl)%string].
Proof.
  apply (main_starts_session "1.0" "pstack" [111; 222] 77 "no gdb");
    [discriminate | repeat constructor; discriminate].
Defined.

(** X7: whatever the command line, the loop is only ever run on a session
    in [STATE_START] with at least one pid, one per argument, each in
    range, no thread identifier queued and nothing written yet. *)
Theorem main_running_session
    (V : string) (argv : list string) (errno : Z) (spawn : string + Z)
    (w : World) :
  main V argv errno spawn = Running w ->
  pids (app w) <> []
  /\ List.length (pids (app w)) = (List.length argv - 1)%nat
  /\ Forall pid_in_range (pids (app w))
  /\ state (app w) = STATE_START
  /\ threads (app w) = []
  /\ gdb_stdin w = [] /\ stdout w = [] /\ stderr w = [].
Proof.
  unfold main.
  destruct (main_options V (hd "" argv) (tl argv) blank) as [[code w0]|];
    [discriminate|].
  pose proof (get_pid_list_all_or_nothing argv errno) as H.
  destruct (get_pid_list argv errno) as [ps msgs]. cbn [fst snd] in H.
  destruct ps as [|p ps]; [discriminate|].
  destruct H as [[H _] | (_ & Hne & Hl & Hr)]; [discriminate|].
  destruct spawn as [m | g]; cbn [start_gdb]; [discriminate|].
  intros E. injection E as E. subst w.
  cbn. repeat split; auto.
Qed.

Lemma main_running_session_witness :
  pids (app (session_start 77 [111; 222])) <> []
  /\ state (app (session_start 77 [111; 222])) = STATE_START.
Proof.
  pose proof (main_running_session "1.0" ["pstack"; "111"; "222"] 0 (inr 77)
                (session_start 77 [111; 222]) eq_refl) as (H1 & _ & _ & H4 & _).
  split; assumption.
Defined.

(** ** The conversation *)

(** X8: a turn writes at most one command to gdb, ended by a line feed,
    and it writes none in one case only: [STATE_BACKTRACE] with a pid in
    the queue and a non-empty listing that has no thread identifier. *)
Theorem one_command_per_turn (lines : list string) (w : World) :
  exists cmds : list string,
    gdb_stdin (turn lines w) = (gdb_stdin w ++ cmds)%list
    /\ (List.length cmds <= 1)%nat
    /\ Forall (fun c => exists body, c = body ++ nl) cmds
    /\ (cmds = [] <->
        pids (app w) <> [] /\ state (app w) = STATE_BACKTRACE
        /\ lines <> [] /\ fst (get_thread_ids lines) = []).
Proof.
  destruct (turn_transition lines w) as (cmds & Hs & Ht).
  exists cmds. split; [exact Hs|].
  split; [destruct Ht; simpl; lia|].
  split.
  { destruct Ht; repeat constructor;
      try (match goal with
           | |- exists _, thread_command ?x = _ =>
               exists ("pstack_thread " ++ x); reflexivity
           | |- exists _, attach_command ?x = _ =>
               exists ("attach " ++ string_of_gint x); reflexivity
           end);
      eexists; reflexivity. }
  split.
  - intros E. subst cmds. rewrite app_nil_r in Hs.
    inversion Ht as [| | | | | | | p ps Hp Hst | | | |]; subst.
    symmetry in Hp, Hst.
    pose proof (turn_backtrace lines w p ps Hst Hp) as Hb. cbv zeta in Hb.
    rewrite Hb in Hs. split; [rewrite ?Hp; discriminate|].
    split; [first [exact Hst | reflexivity]|].
    destruct lines as [|l iter].
    + exfalso. cbn in Hs. apply (f_equal (@List.length string)) in Hs.
      rewrite length_app in Hs. simpl in Hs. lia.
    + split; [discriminate|].
      destruct (fst (get_thread_ids (l :: iter))) as [|t ts]; [reflexivity|].
      exfalso. cbn in Hs. apply (f_equal (@List.length string)) in Hs.
      rewrite length_app in Hs. simpl in Hs. lia.
  - intros (Hp & Hst & Hl & Hids).
    destruct (pids (app w)) as [|p ps] eqn:Ep; [contradiction|].
    pose proof (turn_backtrace lines w p ps Hst Ep) as Hb. cbv zeta in Hb.
    destruct lines as [|l iter]; [contradiction|].
    rewrite Hids in Hb. rewrite Hb in Hs. cbn in Hs.
    destruct cmds as [|c cmds]; [reflexivity|].
    apply (f_equal (@List.length string)) in Hs.
    rewrite length_app in Hs. simpl in Hs. lia.
Qed.

Lemma session_invariant_turn (lines : list string) (w : World) :
  session_invariant w -> session_invariant (turn lines w).
Proof.
  intros (H1 & H2 & H3).
  destruct (pids (app w)) as [|p ps] eqn:Ep.
  - rewrite (turn_without_pid lines w Ep).
    destruct w as [[ps0 ts g r st] i o e sg q]. simpl in *. subst ps0.
    split; [|split]; cbn.
    + intros Hts. specialize (H1 Hts). subst st.
      exfalso. apply H2; reflexivity.
    + discriminate.
    + reflexivity.
  - destruct (turn_with_pid lines w p ps Ep) as [Ht _]. rewrite Ht.
    unfold handle_turn.
    destruct (print_lines_frame lines w) as (Fa & _).
    destruct w as [[ps0 ts g r st] i o e sg q]. simpl in Ep. subst ps0.
    cbn [state app] in *.
    assert (Hts : st <> STATE_PRINT_BACKTRACE -> ts = []).
    { intros Hn. destruct ts; [reflexivity|].
      exfalso. apply Hn, H1. discriminate. }
    destruct st.
    + rewrite (Hts ltac:(discriminate)).
      repeat split; cbn; try discriminate; congruence.
    + rewrite (Hts ltac:(discriminate)).
      repeat split; cbn; try discriminate; congruence.
    + rewrite (Hts ltac:(discriminate)).
      destruct (attach_ok lines) as [[|] buf];
        repeat split; cbn; try discriminate; congruence.
    + destruct lines as [|l iter].
      * rewrite (Hts ltac:(discriminate)).
        repeat split; cbn; try discriminate; congruence.
      * destruct (get_thread_ids (l :: iter)) as [[|t ts'] ls];
          repeat split; cbn; try discriminate; congruence.
    + destruct (print_lines lines _) as [a1 i1 o1 e1 s1 q1].
      simpl in Fa. subst a1. cbn [threads app].
      destruct ts as [|t ts];
        repeat split; cbn; try discriminate; congruence.
    + rewrite (Hts ltac:(discriminate)).
      repeat split; cbn; try discriminate; congruence.
    + exfalso. specialize (H3 eq_refl). discriminate.
Qed.

(** X9: in every session started by [main], after any number of turns,
    thread identifiers are queued only in [STATE_PRINT_BACKTRACE] (the
    queue is empty when a target begins), the states that handle an
    attached pid have that pid at the front of the queue, and
    [STATE_DONE] is entered with the queue empty only. *)
Theorem session_invariant_run
    (gdb : Z) (pids0 : list Z) (turns : list (list string)) :
  session_invariant (run turns (session_start gdb pids0)).
Proof.
  assert (H : forall w, session_invariant w -> session_invariant (run turns w)).
  { induction turns as [|l turns IH]; intros w Hw; [exact Hw|].
    cbn [run]. apply IH, session_invariant_turn, Hw. }
  apply H. repeat split; cbn; try discriminate; congruence.
Qed.



Lemma print_lines_world (lines : list string) :
  forall w : World,
    print_lines lines w =
      mkWorld (app w) (gdb_stdin w) (stdout w ++ map printed_line lines)
              (stderr w) (signals w) (loop_quit w).
Proof.
  induction lines as [|l iter IH]; intros w.
  - destruct w. cbn. rewrite app_nil_r. reflexivity.
  - cbn [print_lines map]. rewrite IH. cbn. rewrite <- app_assoc. reflexivity.
Qed.

(** X11: [print_lines] writes every line of the turn on the output
    stream, in order, each followed by a line feed, and does nothing
    else. *)
Theorem print_lines_output (lines : list string) (w : World) :
  stdout (print_lines lines w) = (stdout w ++ map printed_line lines)%list
  /\ app (print_lines lines w) = app w
  /\ gdb_stdin (print_lines lines w) = gdb_stdin w
  /\ stderr (print_lines lines w) = stderr w
  /\ signals (print_lines lines w) = signals w
  /\ loop_quit (print_lines lines w) = loop_quit w.
Proof.
  rewrite print_lines_world. repeat split.
Qed.

(** The steps of the conversation on a world given by its fields. *)
Lemma step_attach
    (l : list string) (p : Z) (rest : list Z) (ts : list string) (g r : Z)
    (i o e : list string) (sg : list (Z * Z)) (q : bool) :
  turn l (mkWorld (mkApp (p :: rest) ts g r STATE_ATTACH) i o e sg q) =
    mkWorld (mkApp (p :: rest) ts g r STATE_CHECK_THREADS)
      (i ++ [attach_command p]) o e sg q.
Proof. reflexivity. Qed.

Lemma step_check_ok
    (l : list string) (p : Z) (rest : list Z) (ts : list string) (g r : Z)
    (i o e : list string) (sg : list (Z * Z)) (q : bool) :
  fst (attach_ok l) = true ->
  turn l (mkWorld (mkApp (p :: rest) ts g r STATE_CHECK_THREADS) i o e sg q) =
    mkWorld (mkApp (p :: rest) ts g r STATE_BACKTRACE)
      (i ++ [("info threads" ++ nl)%string]) o e sg q.
Proof.
  intros H. apply attach_ok_true in H.
  unfold turn, current_pid, check_pids, handle_turn. cbn [pids app state].
  rewrite H. reflexivity.
Qed.

Lemma step_check_failed
    (l : list string) (p : Z) (rest : list Z) (ts : list string) (g r : Z)
    (i o e : list string) (sg : list (Z * Z)) (q : bool) :
  fst (attach_ok l) = false ->
  turn l (mkWorld (mkApp (p :: rest) ts g r STATE_CHECK_THREADS) i o e sg q) =
    mkWorld (mkApp rest ts g r STATE_ATTACH)
      (i ++ [("p 0" ++ nl)%string]) o (e ++ [skipping_report p l]) sg q.
Proof.
  intros H.
  unfold turn, current_pid, check_pids, handle_turn, skipping_report.
  cbn [pids app state].
  destruct (attach_ok l) as [[|] buf]; [discriminate | reflexivity].
Qed.

Lemma step_backtrace_ids
    (l : list string) (t : string) (ts' : list string)
    (p : Z) (rest : list Z) (ts : list string) (g r : Z)
    (i o e : list string) (sg : list (Z * Z)) (q : bool) :
  fst (get_thread_ids l) = t :: ts' ->
  turn l (mkWorld (mkApp (p :: rest) ts g r STATE_BACKTRACE) i o e sg q) =
    mkWorld (mkApp (p :: rest) ts' g r STATE_PRINT_BACKTRACE)
      (i ++ [thread_command t]) (o ++ [backtrace_header p]) e sg q.
Proof.
  intros H.
  unfold turn, current_pid, check_pids, handle_turn. cbn [pids app state].
  destruct l as [|x l]; [discriminate H|].
  destruct (get_thread_ids (x :: l)) as [ids ls]. cbn [fst] in H. subst ids.
  reflexivity.
Qed.

Lemma step_backtrace_empty
    (p : Z) (rest : list Z) (ts : list string) (g r : Z)
    (i o e : list string) (sg : list (Z * Z)) (q : bool) :
  turn [] (mkWorld (mkApp (p :: rest) ts g r STATE_BACKTRACE) i o e sg q) =
    mkWorld (mkApp (p :: rest) ts g r STATE_PRINT_BACKTRACE)
      (i ++ [("backtrace" ++ nl)%string]) (o ++ [backtrace_header p]) e sg q.
Proof. reflexivity. Qed.

Lemma step_print_next
    (l : list string) (t : string) (ts : list string)
    (p : Z) (rest : list Z) (g r : Z)
    (i o e : list string) (sg : list (Z * Z)) (q : bool) :
  turn l (mkWorld (mkApp (p :: rest) (t :: ts) g r STATE_PRINT_BACKTRACE)
            i o e sg q) =
    mkWorld (mkApp (p :: rest) ts g r STATE_PRINT_BACKTRACE)
      (i ++ [thread_command t]) (o ++ map printed_line l) e sg q.
Proof.
  unfold turn, current_pid, check_pids, handle_turn. cbn [pids app state].
  rewrite print_lines_world. reflexivity.
Qed.

Lemma step_print_last
    (l : list string) (p : Z) (rest : list Z) (g r : Z)
    (i o e : list string) (sg : list (Z * Z)) (q : bool) :
  turn l (mkWorld (mkApp (p :: rest) [] g r STATE_PRINT_BACKTRACE)
            i o e sg q) =
    mkWorld (mkApp rest [] g r STATE_ATTACH)
      (i ++ [("detach" ++ nl)%string]) (o ++ map printed_line l) e sg q.
Proof.
  unfold turn, current_pid, check_pids, handle_turn. cbn [pids app state].
  rewrite print_lines_world. reflexivity.
Qed.

(** The backtrace turns of a target, down to its [detach]. *)
Lemma run_backtraces (bts : list (list string)) :
  forall (p : Z) (rest : list Z) (ts : list string) (g r : Z)
         (i o e : list string) (sg : list (Z * Z)) (q : bool),
    List.length bts = S (List.length ts) ->
    run bts (mkWorld (mkApp (p :: rest) ts g r STATE_PRINT_BACKTRACE)
               i o e sg q) =
      mkWorld (mkApp rest [] g r STATE_ATTACH)
        (i ++ map thread_command ts ++ [("detach" ++ nl)%string])
        (o ++ map printed_line (List.concat bts)) e sg q.
Proof.
  induction bts as [|b bts IH]; intros p rest ts g r i o e sg q Hl;
    [discriminate|].
  cbn [run]. destruct ts as [|t ts].
  - destruct bts; [|discriminate]. rewrite step_print_last.
    cbn [run map List.concat List.app]. rewrite app_nil_r. reflexivity.
  - rewrite step_print_next, IH by (simpl in Hl; lia).
    cbn [map List.concat List.app]. rewrite map_app, <- !app_assoc.
    reflexivity.
Qed.

(** X12: the episode of a target with threads.  From [STATE_ATTACH], when
    the attach succeeds and the listing yields identifiers, and as many
    backtrace responses follow as there are identifiers, the commands sent
    are [attach], [info threads], one [pstack_thread] per identifier in
    queue order and [detach]; the output is the header of the pid and then
    every line of every response, in order.  The pid leaves the
    queue, no identifier stays queued, the state is [STATE_ATTACH] again
    and nothing else has changed. *)
Theorem threaded_target_episode
    (p : Z) (rest : list Z) (g r : Z) (i o e : list string)
    (sg : list (Z * Z)) (q : bool)
    (before response listing : list string) (bts : list (list string)) :
  fst (attach_ok response) = true ->
  fst (get_thread_ids listing) <> [] ->
  List.length bts = List.length (fst (get_thread_ids listing)) ->
  run (before :: response :: listing :: bts)
    (mkWorld (mkApp (p :: rest) [] g r STATE_ATTACH) i o e sg q) =
    mkWorld (mkApp rest [] g r STATE_ATTACH)
      (i ++ attach_command p :: ("info threads" ++ nl)%string
         :: map thread_command (fst (get_thread_ids listing))
         ++ [("detach" ++ nl)%string])
      (o ++ backtrace_header p :: map printed_line (List.concat bts)) e sg q.
Proof.
  intros Hok Hids Hl.
  destruct (fst (get_thread_ids listing)) as [|t ts] eqn:E; [contradiction|].
  cbn [run].
  rewrite step_attach, (step_check_ok response _ _ _ _ _ _ _ _ _ _ Hok),
    (step_backtrace_ids listing t ts _ _ _ _ _ _ _ _ _ _ E),
    run_backtraces by (simpl in Hl; lia).
  cbn [map List.app]. rewrite <- !app_assoc. reflexivity.
Qed.

Lemma threaded_target_episode_witness :
  run [ []; ["Attaching to process 222"];
        ["  2 Thread 0x7f (LWP 5)  a ()"; "* 1 Thread 0x7e (LWP 4)  b ()"];
        ["#0  b ()"; "#1  main ()"]; ["#0  a ()"] ]
    (mkWorld (mkApp [222; 333] [] 77 0 STATE_ATTACH) [] [] [] [] false) =
    mkWorld (mkApp [333] [] 77 0 STATE_ATTACH)
      [attach_command 222; ("info threads" ++ nl)%string;
       thread_command "* 1"; thread_command "  2"; ("detach" ++ nl)%string]
      [backtrace_header 222; printed_line "#0  b ()";
       printed_line "#1  main ()"; printed_line "#0  a ()"] [] [] false.
Proof.
  exact (threaded_target_episode 222 [333] 77 0 [] [] [] [] false
           [] ["Attaching to process 222"]
           ["  2 Thread 0x7f (LWP 5)  a ()"; "* 1 Thread 0x7e (LWP 4)  b ()"]
           [["#0  b ()"; "#1  main ()"]; ["#0  a ()"]]
           eq_refl ltac:(discriminate) eq_refl).
Defined.

(** X13: the episode of a target without thread listing.  From
    [STATE_ATTACH], when the attach succeeds and the response to
    [info threads] is empty, the commands sent are [attach],
    [info threads], [backtrace] and [detach]; the output is the header of
    the pid and then the lines of the backtrace. *)
Theorem single_thread_episode
    (p : Z) (rest : list Z) (g r : Z) (i o e : list string)
    (sg : list (Z * Z)) (q : bool)
    (before response backtrace : list string) :
  fst (attach_ok response) = true ->
  run [before; response; []; backtrace]
    (mkWorld (mkApp (p :: rest) [] g r STATE_ATTACH) i o e sg q) =
    mkWorld (mkApp rest [] g r STATE_ATTACH)
      (i ++ [attach_command p; ("info threads" ++ nl)%string;
             ("backtrace" ++ nl)%string; ("detach" ++ nl)%string])
      (o ++ backtrace_header p :: map printed_line backtrace) e sg q.
Proof.
  intros Hok. cbn [run].
  rewrite step_attach, (step_check_ok response _ _ _ _ _ _ _ _ _ _ Hok),
    step_backtrace_empty, step_print_last.
  rewrite <- !app_assoc. reflexivity.
Qed.

Lemma single_thread_episode_witness :
  run [ []; ["Attaching to process 222"]; []; ["#0  main ()"] ]
    (mkWorld (mkApp [222] [] 77 0 STATE_ATTACH) [] [] [] [] false) =
    mkWorld (mkApp [] [] 77 0 STATE_ATTACH)
      [attach_command 222; ("info threads" ++ nl)%string;
       ("backtrace" ++ nl)%string; ("detach" ++ nl)%string]
      [backtrace_header 222; printed_line "#0  main ()"] [] [] false.
Proof.
  exact (single_thread_episode 222 [] 77 0 [] [] [] [] false
           [] ["Attaching to process 222"] ["#0  main ()"] eq_refl).
Defined.

(** X14: targets whose attach fails, one after the other.  For each of
    them [attach] and then [p 0] are sent and the failure is reported with
    its pid and gdb's line, in the order of the queue; nothing is printed
    on the output stream, and the queue is left with the pids that follow
    them, in [STATE_ATTACH]. *)
Theorem failed_targets_skipped (targets : list FailedTarget) :
  forall (rest : list Z) (ts : list string) (g r : Z) (i o e : list string)
         (sg : list (Z * Z)) (q : bool),
    Forall (fun t => fst (attach_ok (ft_response t)) = false) targets ->
    run (flat_map failed_turns targets)
      (mkWorld (mkApp (map ft_pid targets ++ rest) ts g r STATE_ATTACH)
         i o e sg q) =
      mkWorld (mkApp rest ts g r STATE_ATTACH)
        (i ++ flat_map failed_commands targets) o
        (e ++ map (fun t => skipping_report (ft_pid t) (ft_response t)) targets)
        sg q.
Proof.
  induction targets as [|t targets IH]; intros rest ts g r i o e sg q Hf.
  - cbn. rewrite !app_nil_r. reflexivity.
  - inversion Hf as [|? ? Ht Hts]; subst.
    cbn [flat_map failed_turns List.app map run].
    rewrite step_attach, (step_check_failed _ _ _ _ _ _ _ _ _ _ _ Ht),
      (IH rest ts g r _ o _ sg q Hts).
    cbn [failed_commands List.app]. rewrite <- !app_assoc. reflexivity.
Qed.

Lemma failed_targets_skipped_witness :
  run [ []; ["ptrace: Operation not permitted."];
        ["$1 = 0"]; ["warning"; "ptrace: No such process."] ]
    (mkWorld (mkApp [111; 222; 333] [] 77 0 STATE_ATTACH) [] [] [] [] false) =
    mkWorld (mkApp [333] [] 77 0 STATE_ATTACH)
      [attach_command 111; ("p 0" ++ nl)%string;
       attach_command 222; ("p 0" ++ nl)%string] []
      [("Skipping pid 111: ptrace: Operation not permitted." ++ nl)%string;
       ("Skipping pid 222: ptrace: No such process." ++ nl)%string] [] false.
Proof.
  exact (failed_targets_skipped
           [mkFailed 111 [] ["ptrace: Operation not permitted."];
            mkFailed 222 ["$1 = 0"] ["warning"; "ptrace: No such process."]]
           [333] [] 77 0 [] [] [] [] false
           ltac:(repeat constructor)).
Defined.

(** ** The callback and the framer *)

(** [read_lines] takes reads from the front of the channel and touches
    nothing but the error stream, on which it reports at most once. *)
Lemma read_lines_loop_frame (ch : Channel) :
  forall (buf : string) (w : World) (lines : option (list string))
         (ch' : Channel) (w' : World),
    read_lines_loop ch buf w = Some (lines, ch', w') ->
    (w' = w \/ exists message, w' = g_printerr message w)
    /\ exists k, ch' = skipn k ch.
Proof.
  induction ch as [|r ch IH]; intros buf w lines ch' w' H.
  - cbn [read_lines_loop] in H. unfold read_lines_body in H.
    cbn [rc_status nothing_to_read] in H.
    destruct (g_str_has_suffix _ PROMPT); injection H as _ Hc Hw; subst;
      (split; [now left | exists O; reflexivity]).
  - cbn [read_lines_loop] in H.
    destruct (BUF_SIZE <=? String.length (rc_bytes r))%nat; [discriminate|].
    unfold read_lines_body in H.
    destruct (g_str_has_suffix (buf ++ c_str (rc_bytes r)) PROMPT) eqn:Es.
    + destruct (rc_status r); [destruct (rc_error r)|..];
        injection H as _ Hc Hw; subst;
        (split; [first [now left | right; eexists; reflexivity]
                | exists 1%nat; reflexivity]).
    + destruct (rc_status r); [destruct (rc_error r)|..];
        try (injection H as _ Hc Hw; subst;
             split; [first [now left | right; eexists; reflexivity]
                    | exists 1%nat; reflexivity]).
      destruct (IH _ _ _ _ _ H) as (Hw & k & Hk).
      split; [exact Hw | exists (S k); exact Hk].
Qed.

Lemma turn_after_report (message : string) (lines : list string) (w : World) :
  handle_turn (current_pid w) lines (g_printerr message (check_pids w)) =
    handle_turn (current_pid (g_printerr message w)) lines
      (check_pids (g_printerr message w)).
Proof.
  destruct w as [[ps ts g r st] i o e sg q]. destruct ps; reflexivity.
Qed.

Lemma check_pids_after_report (message : string) (w : World) :
  g_printerr message (check_pids w) = check_pids (g_printerr message w).
Proof.
  destruct w as [[ps ts g r st] i o e sg q]. destruct ps; reflexivity.
Qed.

(** X15: one call of [process_gdb_output] handles at most one turn and
    takes its reads from the front of the channel.  It returns TRUE
    exactly when the condition has neither the error nor the hang-up bit
    and [read_lines] has framed a turn; the turn it then handles is the
    very one [read_lines] returned, on the world [read_lines] left (with
    at most one read-error report), and the channel is left where
    [read_lines] stopped.  When it returns FALSE it has sent no command,
    printed nothing on the output stream, sent no signal and left both
    queues as they were. *)
Theorem process_gdb_output_cases
    (condition : Z) (ch : Channel) (w : World)
    (b : bool) (ch' : Channel) (w' : World) (rel : option (list string)) :
  process_gdb_output condition ch w = Some (b, ch', w', rel) ->
  (b = true <->
     Z.land condition G_IO_ERR = 0 /\ Z.land condition G_IO_HUP = 0
     /\ exists lines ch1 w1,
          read_lines ch (check_pids w) = Some (Some lines, ch1, w1))
  /\ (b = false ->
      rel = None /\ gdb_stdin w' = gdb_stdin w /\ stdout w' = stdout w
      /\ signals w' = signals w
      /\ pids (app w') = pids (app w) /\ threads (app w') = threads (app w))
  /\ (b = true ->
      exists lines w0,
        (w0 = w \/ exists message, w0 = g_printerr message w)
        /\ read_lines ch (check_pids w) = Some (Some lines, ch', check_pids w0)
        /\ w' = turn lines w0
        /\ rel = Some (released lines w0))
  /\ exists k, ch' = skipn k ch.
Proof.
  unfold process_gdb_output.
  destruct (Z.land condition G_IO_ERR =? 0) eqn:Ee.
  2:{ cbn [negb orb]. apply Z.eqb_neq in Ee.
      intros H. injection H as Hb Hc Hw Hr. subst b ch' w' rel.
      split; [split; [discriminate | intros (E & _); contradiction]|].
      split; [intros _; repeat split|].
      split; [discriminate | exists O; reflexivity]. }
  destruct (Z.land condition G_IO_HUP =? 0) eqn:Eh.
  2:{ cbn [negb orb]. apply Z.eqb_neq in Eh.
      intros H. injection H as Hb Hc Hw Hr. subst b ch' w' rel.
      split; [split; [discriminate | intros (_ & E & _); contradiction]|].
      split; [intros _; repeat split|].
      split; [discriminate | exists O; reflexivity]. }
  cbn [negb orb]. apply Z.eqb_eq in Ee. apply Z.eqb_eq in Eh.
  destruct (read_lines ch (check_pids w)) as [[[lines ch1] w1]|] eqn:E;
    [|discriminate].
  pose proof E as E'. unfold read_lines in E'.
  destruct (read_lines_loop_frame ch _ _ _ _ _ E') as (Hw1 & Hk).
  destruct lines as [lines|].
  - destruct (handle_turn (current_pid w) lines w1) as [w2 ls] eqn:Et.
    intros H. injection H as Hb Hc Hw Hr. subst b ch' w' rel.
    split.
    { split; [|reflexivity]. intros _. split; [exact Ee|].
      split; [exact Eh|]. exists lines, ch1, w1. reflexivity. }
    split; [discriminate|]. split; [|exact Hk]. intros _.
    destruct Hw1 as [Hw1 | [message Hw1]]; subst w1.
    + exists lines, w. split; [now left|]. split; [reflexivity|].
      unfold turn, released. rewrite Et. split; reflexivity.
    + exists lines, (g_printerr message w).
      split; [right; exists message; reflexivity|].
      rewrite <- check_pids_after_report. split; [reflexivity|].
      unfold turn, released. rewrite <- turn_after_report, Et.
      split; reflexivity.
  - intros H. injection H as Hb Hc Hw Hr. subst b ch' w' rel.
    split.
    { split; [discriminate|].
      intros (_ & _ & lines & ch2 & w2 & Hx). discriminate Hx. }
    split; [|split; [discriminate | exact Hk]]. intros _.
    assert (Hf : gdb_stdin w1 = gdb_stdin w /\ stdout w1 = stdout w
                 /\ signals w1 = signals w
                 /\ pids (app w1) = pids (app w)
                 /\ threads (app w1) = threads (app w)).
    { destruct w as [[ps ts g r st] i o e sg q].
      destruct Hw1 as [Hw1 | [message Hw1]]; subst w1;
        destruct ps; repeat split. }
    split; [reflexivity | exact Hf].
Qed.

Lemma process_gdb_output_cases_witness :
  let w := mkWorld (mkApp [111] [] 77 0 STATE_CHECK_THREADS) [] [] [] [] false in
  let ch := [normal_read ("Attaching to process 111" ++ nl);
             normal_read PROMPT; normal_read "later"] in
  exists lines w0,
    (w0 = w \/ exists message, w0 = g_printerr message w)
    /\ read_lines ch (check_pids w) =
         Some (Some lines, [normal_read "later"], check_pids w0)
    /\ turn ["Attaching to process 111"] w = turn lines w0
    /\ Some ["Attaching to process 111"] = Some (released lines w0).
Proof.
  intros w ch.
  exact (proj1 (proj2 (proj2 (process_gdb_output_cases G_IO_IN ch w true
                         [normal_read "later"]
                         (turn ["Attaching to process 111"] w)
                         (Some ["Attaching to process 111"])
                         eq_refl))) eq_refl).
Defined.

Lemma split_on_line (l rest : string) :
  lf_free l = true ->
  split_on LF (l ++ String LF rest) = l :: split_on LF rest.
Proof.
  intros H. induction l as [|c l IH]; [reflexivity|].
  cbn [lf_free] in H. apply andb_true_iff in H. destruct H as [Hc Hl].
  apply negb_true_iff in Hc.
  cbn [append split_on]. rewrite Hc, (IH Hl). reflexivity.
Qed.

Lemma split_on_lf_free (t : string) : lf_free t = true -> split_on LF t = [t].
Proof.
  intros H. induction t as [|c t IH]; [reflexivity|].
  cbn [lf_free] in H. apply andb_true_iff in H. destruct H as [Hc Ht].
  apply negb_true_iff in Hc.
  cbn [split_on]. rewrite Hc, (IH Ht). reflexivity.
Qed.

Lemma lf_free_append (a b : string) :
  lf_free a = true -> lf_free b = true -> lf_free (a ++ b) = true.
Proof.
  intros Ha Hb. induction a as [|c a IH]; [exact Hb|].
  cbn [lf_free] in Ha. apply andb_true_iff in Ha. destruct Ha as [Hc Ha].
  cbn [append lf_free]. rewrite Hc, (IH Ha). reflexivity.
Qed.

Lemma split_on_lines (lines : list string) (last : string) :
  Forall (fun l => lf_free l = true) lines ->
  lf_free last = true ->
  split_on LF (lines_content lines ++ last) = (lines ++ [last])%list.
Proof.
  intros Hl Hlast. induction Hl as [|l ls Hl0 Hls IH].
  - apply split_on_lf_free. exact Hlast.
  - unfold lines_content in *. cbn [map concat_chunks fold_right List.app].
    unfold printed_line at 1, nl.
    rewrite !append_assoc. cbn [append].
    rewrite (split_on_line l _ Hl0).
    change (fold_right append "" (map printed_line ls))
      with (concat_chunks (map printed_line ls)).
    rewrite IH. reflexivity.
Qed.

(** X16: framing gives back the lines gdb wrote.  When the output of a
    turn is a sequence of lines, each ended by a line feed, followed by
    the prompt, possibly with some text before the prompt on its line, a
    call of [read_lines] that receives it in chunks returns exactly these
    lines; the text on the line of the prompt is dropped with it. *)
Theorem read_lines_round_trip
    (lines : list string) (tail : string)
    (chunks : list string) (last : string) (ch : Channel) (w : World) :
  Forall (fun l => lf_free l = true) lines ->
  lf_free tail = true ->
  Forall chunk_ok (chunks ++ [last]) ->
  no_prompt_after "" chunks = true ->
  concat_chunks (chunks ++ [last]) = lines_content lines ++ tail ++ PROMPT ->
  read_lines (map normal_read (chunks ++ [last]) ++ ch)%list w =
    Some (Some lines, ch, w).
Proof.
  intros Hl Ht Hok Hnp Hc.
  rewrite (read_lines_turn chunks last ch w Hok Hnp).
  - rewrite Hc. unfold turn_of_content, g_strsplit.
    assert (Hs : split_on LF (lines_content lines ++ tail ++ PROMPT) =
                 (lines ++ [(tail ++ PROMPT)%string])%list).
    { apply split_on_lines; [exact Hl|].
      apply lf_free_append; [exact Ht | reflexivity]. }
    destruct (lines_content lines ++ tail ++ PROMPT) eqn:E.
    + exfalso. apply (f_equal String.length) in E.
      rewrite !length_append in E. simpl in E. lia.
    + rewrite Hs, removelast_last. reflexivity.
  - apply g_str_has_suffix_iff. exists (lines_content lines ++ tail).
    rewrite Hc, append_assoc. reflexivity.
Qed.

Lemma read_lines_round_trip_witness :
  let w := session_start 77 [111] in
  read_lines (map normal_read ["#0  a ()"; nl; "#1  b ()"; (nl ++ "x(gd")%string;
                               "b) "]) w =
    Some (Some ["#0  a ()"; "#1  b ()"], [], w).
Proof.
  intros w.
  pose proof (read_lines_round_trip ["#0  a ()"; "#1  b ()"] "x"
                ["#0  a ()"; nl; "#1  b ()"; (nl ++ "x(gd")%string] "b) " [] w
                ltac:(repeat constructor) eq_refl) as H.
  rewrite app_nil_r in H. apply H; [|reflexivity|reflexivity].
  repeat constructor; try discriminate; apply Nat.ltb_lt; reflexivity.
Defined.

(** ** The reap supervisor *)

Lemma waitpid_timeout_effects (pid : Z) (w : World) :
  same_session w (snd (waitpid_timeout pid w))
  /\ stderr (snd (waitpid_timeout pid w)) = stderr w
  /\ exists sent,
       signals (snd (waitpid_timeout pid w)) = (signals w ++ sent)%list
       /\ (List.length sent <= 1)%nat
       /\ Forall (reap_signal (gdb_pid (app w))) sent.
Proof.
  assert (Hnone : forall sg : list (Z * Z),
             exists sent, sg = (sg ++ sent)%list /\ (List.length sent <= 1)%nat
                          /\ Forall (reap_signal (gdb_pid (app w))) sent).
  { intros sg. exists []. rewrite app_nil_r. repeat split; auto. }
  unfold waitpid_timeout, same_session.
  destruct w as [[ps ts g r st] i o e sg q]. cbn in *.
  destruct (pid =? -1); [repeat split; apply Hnone|].
  destruct (pid =? 0); [|repeat split; apply Hnone].
  destruct (gint_wrap (r - 1) =? 0).
  - repeat split. exists [(g, SIGTERM)].
    split; [reflexivity|]. split; [simpl; lia|].
    constructor; [|constructor]. split; [reflexivity | left; reflexivity].
  - destruct (gint_wrap (r - 1) <? 0); [|repeat split; apply Hnone].
    repeat split. exists [(g, SIGKILL)].
    split; [reflexivity|]. split; [simpl; lia|].
    constructor; [|constructor]. split; [reflexivity | right; reflexivity].
Qed.

Lemma timeout_source_effects (waitpid : nat -> Z) (ticks : nat) :
  forall (k : nat) (w : World),
    same_session w (timeout_source waitpid k ticks w)
    /\ stderr (timeout_source waitpid k ticks w) = stderr w
    /\ exists sent,
         signals (timeout_source waitpid k ticks w) = (signals w ++ sent)%list
         /\ (List.length sent <= ticks)%nat
         /\ Forall (reap_signal (gdb_pid (app w))) sent.
Proof.
  induction ticks as [|t IH]; intros k w.
  - cbn. unfold same_session. repeat split.
    exists []. rewrite app_nil_r. repeat split; auto.
  - cbn [timeout_source].
    destruct (waitpid_timeout_effects (waitpid k) w)
      as (Hs & He & sent & Hsig & Hlen & Hf).
    destruct (waitpid_timeout (waitpid k) w) as [again w1]. cbn [snd] in *.
    destruct again.
    + destruct (IH (S k) w1) as (Hs' & He' & sent' & Hsig' & Hlen' & Hf').
      unfold same_session in *.
      destruct Hs as (A1 & A2 & A3 & A4 & A5 & A6).
      destruct Hs' as (B1 & B2 & B3 & B4 & B5 & B6).
      split; [repeat split; congruence|].
      split; [congruence|].
      exists (sent ++ sent')%list. rewrite Hsig', Hsig, app_assoc.
      split; [reflexivity|]. split; [rewrite length_app; lia|].
      apply Forall_app. split; [exact Hf|]. rewrite <- A4. exact Hf'.
    + split; [exact Hs|]. split; [exact He|].
      exists sent. repeat split; auto. lia.
Qed.

(** X17: the reap supervisor only signals.  Whatever the polls return and
    however long the timer runs, [reap_gdb] leaves the queues, the state
    and what was written to gdb and on the output stream as they are;
    it prints [gdb unexpectedly died!] once exactly when the state is not
    [STATE_DONE]; it sends at most one signal per poll, SIGTERM or
    SIGKILL, always to gdb; and the counter it finds does not matter,
    since it sets it anew. *)
Theorem reap_gdb_effects
    (waitpid : nat -> Z) (ticks : nat) (w : World) (n : Z) :
  same_session w (reap_gdb waitpid ticks w)
  /\ stderr (reap_gdb waitpid ticks w) =
       (stderr w ++ if State_eqb (state (app w)) STATE_DONE then []
                    else [("gdb unexpectedly died!" ++ nl)%string])%list
  /\ (exists sent,
        signals (reap_gdb waitpid ticks w) = (signals w ++ sent)%list
        /\ (List.length sent <= S ticks)%nat
        /\ Forall (reap_signal (gdb_pid (app w))) sent)
  /\ reap_gdb waitpid ticks (set_reap_try n w) = reap_gdb waitpid ticks w.
Proof.
  assert (Hind : reap_gdb waitpid ticks (set_reap_try n w) =
                 reap_gdb waitpid ticks w).
  { destruct w as [[ps ts g r st] i o e sg q].
    unfold reap_gdb. cbn. destruct (State_eqb st STATE_DONE); reflexivity. }
  split; [|split; [|split; [|exact Hind]]].
  all: unfold reap_gdb.
  all: set (w0 := if State_eqb _ _ then w else _).
  all: assert (H0 : same_session w w0
                /\ stderr w0 = (stderr w ++ if State_eqb (state (app w)) STATE_DONE
                                            then [] else [("gdb unexpectedly died!" ++ nl)%string])%list
                /\ signals w0 = signals w)
    by (subst w0; unfold same_session;
        destruct (State_eqb (state (app w)) STATE_DONE);
        rewrite ?app_nil_r; repeat split).
  all: destruct H0 as (S0 & E0 & G0).
  all: set (w1 := set_reap_try REAP_RETRY_COUNT w0).
  all: assert (H1 : same_session w0 w1 /\ stderr w1 = stderr w0
                    /\ signals w1 = signals w0)
    by (subst w1; unfold same_session; repeat split).
  all: destruct H1 as (S1 & E1 & G1).
  all: destruct (waitpid_timeout_effects (waitpid O) w1)
         as (S2 & E2 & sent2 & G2 & L2 & F2).
  all: destruct (waitpid_timeout (waitpid O) w1) as [again w2]; cbn [snd] in *.
  all: destruct (timeout_source_effects waitpid ticks 1 w2)
         as (S3 & E3 & sent3 & G3 & L3 & F3).
  all: unfold same_session in *.
  all: destruct S0 as (a1 & a2 & a3 & a4 & a5 & a6).
  all: destruct S1 as (b1 & b2 & b3 & b4 & b5 & b6).
  all: destruct S2 as (c1 & c2 & c3 & c4 & c5 & c6).
  all: destruct S3 as (d1 & d2 & d3 & d4 & d5 & d6).
  - destruct again; repeat split; congruence.
  - destruct again; congruence.
  - destruct again.
    + exists (sent2 ++ sent3)%list. rewrite G3, G2, G1, G0, app_assoc.
      split; [reflexivity|]. split; [rewrite length_app; lia|].
      apply Forall_app. split.
      * rewrite <- a4, <- b4. exact F2.
      * rewrite <- a4, <- b4, <- c4. exact F3.
    + exists sent2. rewrite G2, G1, G0.
      split; [reflexivity|]. split; [lia|].
      rewrite <- a4, <- b4. exact F2.
Qed.

(** ** Thread identifiers, again *)

Lemma ends_with_digit_cons (c : ascii) (s : string) :
  ends_with_digit s -> ends_with_digit (String c s).
Proof.
  intros (pre & d & E & Hd). exists (String c pre), d.
  split; [simpl; congruence | exact Hd].
Qed.

Lemma scan_line_in_run_shape (s : string) :
  snd (scan_line true s) = "" \/ ends_with_digit (snd (scan_line true s)).
Proof.
  induction s as [|c s IH]; [now left|].
  cbn [scan_line]. destruct (g_ascii_isdigit c) eqn:Hc; [|now left].
  destruct (scan_line true s) as [f r]. cbn [snd] in *. right.
  destruct IH as [E | E].
  - subst r. exists "", c. split; [reflexivity | exact Hc].
  - apply ends_with_digit_cons. exact E.
Qed.

Lemma scan_line_found_shape (s : string) :
  fst (scan_line false s) = true -> ends_with_digit (snd (scan_line false s)).
Proof.
  induction s as [|c s IH]; [discriminate|].
  cbn [scan_line]. destruct (g_ascii_isdigit c) eqn:Hc.
  - pose proof (scan_line_in_run_shape s) as H.
    destruct (scan_line true s) as [f r]. cbn [fst snd] in *. intros _.
    destruct H as [E | E].
    + subst r. exists "", c. split; [reflexivity | exact Hc].
    + apply ends_with_digit_cons. exact E.
  - destruct (scan_line false s) as [f r]. cbn [fst snd] in *.
    intros Hf. apply ends_with_digit_cons. exact (IH Hf).
Qed.

(** X18: what [get_thread_ids] returns.  The line vector keeps its
    length; there are no more identifiers than lines; and every
    identifier comes from a line that contains [Thread], is that line cut
    short, and ends with a digit. *)
Theorem get_thread_ids_shape (lines : list string) :
  List.length (snd (get_thread_ids lines)) = List.length lines
  /\ (List.length (fst (get_thread_ids lines)) <= List.length lines)%nat
  /\ forall id, In id (fst (get_thread_ids lines)) ->
       exists l, In l lines
                 /\ strstr l "Thread" <> None
                 /\ truncation_of l id
                 /\ ends_with_digit id.
Proof.
  rewrite get_thread_ids_spec. cbn [fst snd].
  split; [apply length_map|]. split.
  - rewrite length_rev. induction lines as [|l iter IH]; [reflexivity|].
    cbn [ids_in_listing_order flat_map]. fold (ids_in_listing_order iter).
    rewrite length_app, line_ids_unfold. cbn [List.length].
    destruct (strstr l "Thread"); [|simpl; lia].
    destruct (fst (scan_line false l)); simpl; lia.
  - intros id Hin. apply in_rev in Hin.
    unfold ids_in_listing_order in Hin. apply in_flat_map in Hin.
    destruct Hin as (l & Hl & Hid). exists l. split; [exact Hl|].
    rewrite line_ids_unfold in Hid.
    destruct (strstr l "Thread") eqn:Et; [|contradiction].
    destruct (fst (scan_line false l)) eqn:Ef; [|contradiction].
    destruct Hid as [Hid | []]. subst id.
    split; [discriminate|]. split.
    + apply scan_line_truncates.
    + apply scan_line_found_shape. exact Ef.
Qed.

(** ** Whole runs *)

(** X19: over any run the pid queue is what is left of the queue it began
    with after some pids were taken from its front (no pid is added, moved
    or put back), and what has been written to gdb has only been added to,
    by no more commands than turns were handled. *)
Theorem run_bounds (turns : list (list string)) (w : World) :
  (exists k, pids (app (run turns w)) = skipn k (pids (app w)))
  /\ exists cmds,
       gdb_stdin (run turns w) = (gdb_stdin w ++ cmds)%list
       /\ (List.length cmds <= List.length turns)%nat.
Proof.
  revert w. induction turns as [|l turns IH]; intros w.
  - split; [exists O; reflexivity|].
    exists []. rewrite app_nil_r. split; [reflexivity | simpl; lia].
  - cbn [run]. destruct (IH (turn l w)) as ((k & Hk) & cmds & Hc & Hl).
    destruct (turn_transition l w) as (cs & Hs & Ht).
    split.
    + destruct (turn_pids l w) as [E | (p & E & _)].
      * exists k. rewrite Hk, E. reflexivity.
      * exists (S k). rewrite Hk, E. reflexivity.
    + exists (cs ++ cmds)%list. rewrite Hc, Hs, app_assoc.
      split; [reflexivity|]. rewrite length_app. cbn [List.length].
      assert (List.length cs <= 1)%nat by (destruct Ht; simpl; lia). lia.
Qed.

Lemma get_thread_ids_shape_witness :
  exists l, In l ["  2 Thread 0x7f (LWP 5)"; "none"]
            /\ strstr l "Thread" <> None
            /\ truncation_of l "  2"
            /\ ends_with_digit "  2".
Proof.
  apply (proj2 (proj2 (get_thread_ids_shape
                         ["  2 Thread 0x7f (LWP 5)"; "none"])) "  2").
  left. reflexivity.
Defined.
